(** * dashboard.py: the log-line parsing and extraction pipeline

    A shallow embedding of [parse_log_line], [extract_oi_data],
    [extract_strike_data] and [process_log_data] of [src/dashboard.py],
    together with the parts of the Python library they call:
    [str.split], [str.join], the [in] test on strings, [int],
    [re.findall] and [datetime.strptime].

    Modelling conventions.
    - Text is a [string] of characters with codes below 256, and the
      classes [\d] and [\s] are what they are for those characters.
    - Python integers are unbounded, hence [Z].  [int] converts a text of
      at most [Str.max_str_digits] digits, 4300, the default of
      [sys.get_int_max_str_digits()], which the program does not change; on
      a longer text it raises [ValueError].
    - An exception is a value [Raise e] of the [result] type; the bare
      [except] of [parse_log_line] turns it into [None].
    - The regular-expression engine is a backtracking matcher: [Re.run]
      lists every way a pattern can match at the start of a text, in the
      order in which backtracking tries them, so that the head of that list
      is the match Python reports.
    - The list [data] of dictionaries that [process_log_data] hands to
      [pd.DataFrame] is the [list row] returned here; a row is one of the
      two dictionary shapes the function appends. *)

From Stdlib Require Import Strings.String Strings.Ascii ZArith List Bool Lia.
Import ListNotations.

Local Open Scope string_scope.
Local Open Scope list_scope.
Local Open Scope Z_scope.

(** ** Exceptions *)

Inductive exn : Type :=
| ValueError
| IndexError.

Inductive result (A : Type) : Type :=
| Ok (a : A)
| Raise (e : exn).

Arguments Ok {A} a.
Arguments Raise {A} e.

Definition bind {A B : Type} (x : result A) (f : A -> result B) : result B :=
  match x with
  | Ok a => f a
  | Raise e => Raise e
  end.

Notation "x <- e ;; k" := (bind e (fun x => k))
  (at level 61, e at next level, right associativity).

(** [try: ... except: return None] *)
Definition try_except {A : Type} (x : result A) : option A :=
  match x with
  | Ok a => Some a
  | Raise _ => None
  end.

(** ** Python strings *)

Module Str.

(** The newline character, ["\n"]. *)
Definition nl : string := String (ascii_of_nat 10) "".

(** [strip_prefix p s] is what follows [p] in [s] when [s] starts with [p]. *)
Fixpoint strip_prefix (p s : string) : option string :=
  match p with
  | EmptyString => Some s
  | String a p' =>
      match s with
      | EmptyString => None
      | String b s' => if Ascii.eqb a b then strip_prefix p' s' else None
      end
  end.

Definition startswith (p s : string) : bool :=
  match strip_prefix p s with
  | Some _ => true
  | None => false
  end.

(** [sub in s] *)
Fixpoint contains (sub s : string) : bool :=
  startswith sub s ||
  match s with
  | EmptyString => false
  | String _ s' => contains sub s'
  end.

(** [s.split(sep)] for a non-empty [sep]: the fields between the leftmost,
    non-overlapping occurrences of [sep].  [split_go sep skip s] returns the
    fields of [s], the first of which is the field [s] starts in; [skip]
    counts the characters of a separator still to be passed over. *)
Fixpoint split_go (sep : string) (skip : nat) (s : string) : list string :=
  match s with
  | EmptyString => [EmptyString]
  | String a s' =>
      match skip with
      | S k => split_go sep k s'
      | O =>
          if startswith sep s
          then EmptyString :: split_go sep (Nat.pred (String.length sep)) s'
          else match split_go sep 0 s' with
               | f :: fs => String a f :: fs
               | [] => [String a EmptyString]
               end
      end
  end.

Definition split (sep s : string) : list string := split_go sep 0 s.

(** [sep.join(l)] *)
Definition join (sep : string) (l : list string) : string :=
  String.concat sep l.

(** [l[i]], which raises [IndexError] out of range. *)
Definition item {A : Type} (l : list A) (i : nat) : result A :=
  match nth_error l i with
  | Some x => Ok x
  | None => Raise IndexError
  end.

(** The value of a decimal digit: the characters ["0"] to ["9"] have the
    codes 48 to 57. *)
Definition digit_val (a : ascii) : option Z :=
  let code := Z.of_nat (nat_of_ascii a) in
  if (48 <=? code) && (code <=? 57) then Some (code - 48) else None.

Definition isdigit (a : ascii) : bool :=
  match digit_val a with
  | Some _ => true
  | None => false
  end.

(** Whitespace, as [str.isspace] and the class [\s] have it for characters
    below 256: the codes 9 to 13, 28 to 31, 32, 133 and 160. *)
Definition isspace (a : ascii) : bool :=
  let n := nat_of_ascii a in
  (Nat.leb 9 n && Nat.leb n 13) || (Nat.leb 28 n && Nat.leb n 32) ||
  Nat.eqb n 133 || Nat.eqb n 160.

(** The whitespace [int] strips: the codes 9 to 13, 32, 133 and 160. *)
Definition isblank (a : ascii) : bool :=
  let n := nat_of_ascii a in
  (Nat.leb 9 n && Nat.leb n 13) || Nat.eqb n 32 ||
  Nat.eqb n 133 || Nat.eqb n 160.

(** Every character of [s] satisfies [p]. *)
Fixpoint every (p : ascii -> bool) (s : string) : bool :=
  match s with
  | EmptyString => true
  | String a s' => p a && every p s'
  end.

(** The first character of [s] satisfies [p]. *)
Definition starts_in (p : ascii -> bool) (s : string) : bool :=
  match s with
  | EmptyString => false
  | String a _ => p a
  end.

(** The longest prefix of [s] made of characters of [p], and what follows. *)
Fixpoint take_while (p : ascii -> bool) (s : string) : string :=
  match s with
  | EmptyString => EmptyString
  | String a s' => if p a then String a (take_while p s') else EmptyString
  end.

Fixpoint drop_while (p : ascii -> bool) (s : string) : string :=
  match s with
  | EmptyString => EmptyString
  | String a s' => if p a then drop_while p s' else s
  end.

(** The number a run of decimal digits denotes, continuing from [acc]. *)
Fixpoint digits_value (acc : Z) (s : string) : option Z :=
  match s with
  | EmptyString => Some acc
  | String a s' =>
      match digit_val a with
      | Some d => digits_value (10 * acc + d) s'
      | None => None
      end
  end.

Fixpoint lstrip (s : string) : string :=
  match s with
  | String a s' => if isblank a then lstrip s' else s
  | EmptyString => EmptyString
  end.

(** [rstrip]: a character is dropped when it is blank and all that follows
    it has been dropped. *)
Fixpoint rstrip (s : string) : string :=
  match s with
  | EmptyString => EmptyString
  | String a s' =>
      match rstrip s' with
      | EmptyString => if isblank a then EmptyString else String a EmptyString
      | t => String a t
      end
  end.

(** The longest text of digits [int] converts: the interpreter's default
    for [sys.get_int_max_str_digits()].  Leading zeros count. *)
Definition max_str_digits : Z := 4300.

Definition within_limit (t : string) : bool :=
  Z.of_nat (String.length t) <=? max_str_digits.

(** [int(s)] on the literals this program passes to it: surrounding
    whitespace is stripped and what is left must be a non-empty run of
    decimal digits, of at most [max_str_digits] digits.  Any other text
    raises [ValueError] here (Python also reads a sign and digit-group
    underscores; no caller produces them). *)
Definition int (s : string) : result Z :=
  match rstrip (lstrip s) with
  | EmptyString => Raise ValueError
  | t =>
      match digits_value 0 t with
      | Some n => if within_limit t then Ok n else Raise ValueError
      | None => Raise ValueError
      end
  end.

(** [bool(s)], the truth value of a string in a condition. *)
Definition truthy (s : string) : bool :=
  match s with
  | EmptyString => false
  | String _ _ => true
  end.

End Str.

(** ** Regular expressions: the fragment of [re] the program uses *)

Module Re.

(** Character sets. *)
Inductive cset : Type :=
| Digit                     (* \d *)
| Space                     (* \s *)
| Range (lo hi : ascii)     (* [lo-hi] *)
| OneOf (l : string).       (* [abc] *)

Fixpoint mem_string (a : ascii) (l : string) : bool :=
  match l with
  | EmptyString => false
  | String b l' => Ascii.eqb a b || mem_string a l'
  end.

Definition mem (c : cset) (a : ascii) : bool :=
  match c with
  | Digit => Str.isdigit a
  | Space => Str.isspace a
  | Range lo hi =>
      Nat.leb (nat_of_ascii lo) (nat_of_ascii a) &&
      Nat.leb (nat_of_ascii a) (nat_of_ascii hi)
  | OneOf l => mem_string a l
  end.

Inductive regex : Type :=
| Set_ (c : cset)                   (* one character of the set *)
| Lit (l : string)                  (* literal text *)
| Seq (r1 r2 : regex)               (* r1 r2 *)
| Alt (r1 r2 : regex)               (* r1|r2 *)
| Plus (c : cset)                   (* c+, greedy *)
| Rep (c : cset) (lo hi : nat)      (* c{lo,hi}, greedy *)
| Group (i : nat) (r : regex).      (* capture group number i *)

(** Captured groups, most recent first. *)
Definition groups : Type := list (nat * string).

Fixpoint group (i : nat) (g : groups) : string :=
  match g with
  | [] => EmptyString
  | (j, m) :: g' => if Nat.eqb i j then m else group i g'
  end.

(** One way of matching: the matched text, the text left, the groups. *)
Definition outcome : Type := (string * string * groups)%type.

(** [star p s]: every split of [s] into a run of characters of [p] and what
    follows, the longest run first. *)
Fixpoint star (p : ascii -> bool) (s : string) : list (string * string) :=
  match s with
  | EmptyString => [(EmptyString, EmptyString)]
  | String a s' =>
      if p a
      then map (fun ms => (String a (fst ms), snd ms)) (star p s')
             ++ [(EmptyString, s)]
      else [(EmptyString, s)]
  end.

Definition plus (p : ascii -> bool) (s : string) : list (string * string) :=
  match s with
  | EmptyString => []
  | String a s' =>
      if p a
      then map (fun ms => (String a (fst ms), snd ms)) (star p s')
      else []
  end.

(** [rep p lo hi s]: the runs of at least [lo] and at most [hi] characters
    of [p] at the start of [s], the longest first. *)
Fixpoint rep (p : ascii -> bool) (lo hi : nat) (s : string)
  : list (string * string) :=
  let stop := match lo with O => [(EmptyString, s)] | S _ => [] end in
  match hi with
  | O => stop
  | S hi' =>
      match s with
      | EmptyString => stop
      | String a s' =>
          if p a
          then map (fun ms => (String a (fst ms), snd ms))
                   (rep p (Nat.pred lo) hi' s') ++ stop
          else stop
      end
  end.

(** [run r s g]: the ways [r] matches at the start of [s], in backtracking
    order, starting from the groups [g]. *)
Fixpoint run (r : regex) (s : string) (g : groups) : list outcome :=
  match r with
  | Set_ c =>
      match s with
      | EmptyString => []
      | String a s' =>
          if mem c a then [(String a EmptyString, s', g)] else []
      end
  | Lit l =>
      match Str.strip_prefix l s with
      | Some s' => [(l, s', g)]
      | None => []
      end
  | Seq r1 r2 =>
      flat_map
        (fun o1 : outcome =>
           let '(m1, s1, g1) := o1 in
           map (fun o2 : outcome =>
                  let '(m2, s2, g2) := o2 in ((m1 ++ m2)%string, s2, g2))
               (run r2 s1 g1))
        (run r1 s g)
  | Alt r1 r2 => run r1 s g ++ run r2 s g
  | Plus c => map (fun ms => (fst ms, snd ms, g)) (plus (mem c) s)
  | Rep c lo hi => map (fun ms => (fst ms, snd ms, g)) (rep (mem c) lo hi s)
  | Group i r =>
      map (fun o : outcome =>
             let '(m, s', g') := o in (m, s', (i, m) :: g'))
          (run r s g)
  end.

(** [pattern.match(s)]: the first way the pattern matches at the start. *)
Definition match_ (r : regex) (s : string) : option outcome :=
  hd_error (run r s []).

(** [re.findall]: scan left to right; at each position not inside the
    previous match take the first match there, if any.  The result lists
    the groups of each match.  (The patterns of this program never match
    the empty text, the one case in which Python's scan is subtler.) *)
Fixpoint findall_go (r : regex) (skip : nat) (s : string) : list groups :=
  match s with
  | EmptyString =>
      match skip, match_ r EmptyString with
      | O, Some (_, _, g) => [g]
      | _, _ => []
      end
  | String _ s' =>
      match skip with
      | S k => findall_go r k s'
      | O =>
          match match_ r s with
          | Some (m, _, g) => g :: findall_go r (Nat.pred (String.length m)) s'
          | None => findall_go r 0 s'
          end
      end
  end.

Definition findall (r : regex) (s : string) : list groups :=
  findall_go r 0 s.

End Re.

(** ** [datetime] and [datetime.strptime] *)

Module Datetime.

Record datetime : Type := mk_datetime {
  year : Z;
  month : Z;
  day : Z;
  hour : Z;
  minute : Z;
  second : Z;
  microsecond : Z
}.

Definition is_leap (y : Z) : bool :=
  (y mod 4 =? 0) && (negb (y mod 100 =? 0) || (y mod 400 =? 0)).

Definition days_in_month (y m : Z) : Z :=
  match m with
  | 2 => if is_leap y then 29 else 28
  | 4 | 6 | 9 | 11 => 30
  | _ => 31
  end.

(** The range checks of the [date] constructor ([MINYEAR] is 1,
    [MAXYEAR] is 9999). *)
Definition check_date (y m d : Z) : bool :=
  (1 <=? y) && (y <=? 9999) && (1 <=? m) && (m <=? 12) &&
  (1 <=? d) && (d <=? days_in_month y m).

(** The range checks of the [time] part of the [datetime] constructor. *)
Definition check_time (h mi s us : Z) : bool :=
  (0 <=? h) && (h <=? 23) && (0 <=? mi) && (mi <=? 59) &&
  (0 <=? s) && (s <=? 59) && (0 <=? us) && (us <=? 999999).

(** [datetime(y, m, d, h, mi, s, us)] *)
Definition make (y m d h mi s us : Z) : result datetime :=
  if check_date y m d && check_time h mi s us
  then Ok (mk_datetime y m d h mi s us)
  else Raise ValueError.

(** The groups of the format's regular expression, in the order of their
    opening parentheses: [Y], [m], [d], [H], [M], [S], [f]. *)
Definition gY : nat := 1.
Definition gm : nat := 2.
Definition gd : nat := 3.
Definition gH : nat := 4.
Definition gM : nat := 5.
Definition gS : nat := 6.
Definition gf : nat := 7.

Import Re.

Local Notation "r1 ';;' r2" := (Seq r1 r2) (at level 61, right associativity).
Local Notation "r1 '<|>' r2" := (Alt r1 r2) (at level 62, right associativity).
Local Notation "'\d'" := (Set_ Digit) (at level 0).
Local Notation "a '--' b" := (Set_ (Range a b)) (at level 40, no associativity).

(** The regular expression [_strptime] compiles the format
    ["%Y-%m-%d %H:%M:%S,%f"] to: each directive is replaced by its group,
    the space by [\s+], the other characters stand for themselves:
<<
 (?P<Y>\d\d\d\d)-(?P<m>1[0-2]|0[1-9]|[1-9])-
 (?P<d>3[0-1]|[1-2]\d|0[1-9]|[1-9]| [1-9])\s+
 (?P<H>2[0-3]|[0-1]\d|\d):(?P<M>[0-5]\d|\d):(?P<S>6[0-1]|[0-5]\d|\d),
 (?P<f>[0-9]{1,6})
>> *)
Definition re_Y : regex := Group gY (\d ;; \d ;; \d ;; \d).
Definition re_m : regex :=
  Group gm ((Lit "1" ;; ("0" -- "2")) <|> (Lit "0" ;; ("1" -- "9"))
            <|> ("1" -- "9")).
Definition re_d : regex :=
  Group gd ((Lit "3" ;; ("0" -- "1")) <|> (("1" -- "2") ;; \d)
            <|> (Lit "0" ;; ("1" -- "9")) <|> ("1" -- "9")
            <|> (Lit " " ;; ("1" -- "9"))).
Definition re_H : regex :=
  Group gH ((Lit "2" ;; ("0" -- "3")) <|> (("0" -- "1") ;; \d) <|> \d).
Definition re_M : regex :=
  Group gM ((("0" -- "5") ;; \d) <|> \d).
Definition re_S : regex :=
  Group gS ((Lit "6" ;; ("0" -- "1")) <|> (("0" -- "5") ;; \d) <|> \d).
Definition re_f : regex := Group gf (Rep (Range "0" "9") 1 6).

Definition format_regex : regex :=
  re_Y ;; Lit "-" ;; re_m ;; Lit "-" ;; re_d ;; Plus Space ;;
  re_H ;; Lit ":" ;; re_M ;; Lit ":" ;; re_S ;; Lit "," ;; re_f.

Fixpoint zeros (n : nat) : string :=
  match n with
  | O => EmptyString
  | S n' => String "0" (zeros n')
  end.

(** [datetime.strptime(s, "%Y-%m-%d %H:%M:%S,%f")]: the text must match the
    format's expression from its start, nothing may be left over, the
    groups are converted with [int] (the fraction after padding it with
    zeros to six digits), and the constructors check the ranges. *)
Definition strptime (s : string) : result datetime :=
  match match_ format_regex s with
  | None => Raise ValueError
  | Some (_, String _ _, _) => Raise ValueError
  | Some (_, EmptyString, g) =>
      y <- Str.int (group gY g) ;;
      m <- Str.int (group gm g) ;;
      d <- Str.int (group gd g) ;;
      h <- Str.int (group gH g) ;;
      mi <- Str.int (group gM g) ;;
      sec <- Str.int (group gS g) ;;
      let f := group gf g in
      us <- Str.int (f ++ zeros (6 - String.length f)) ;;
      make y m d h mi sec us
  end.

End Datetime.

Import Datetime.

(** ** The functions of [dashboard.py] *)

(** The two shapes of dictionary appended to [data]: the keys [timestamp],
    [ce_oi], [pe_oi], [oi_difference], or the keys [timestamp], [strike]. *)
Inductive row : Type :=
| OIRecord (timestamp : datetime) (ce_oi pe_oi oi_difference : Z)
| StrikeRecord (timestamp : datetime) (strike : string).

Definition parse_log_line (line : string) : option (datetime * string) :=
  try_except
    (timestamp_str <- Str.item (Str.split ": " line) 0 ;;
     let message := Str.join ": " (tl (Str.split ": " line)) in
     timestamp <- strptime timestamp_str ;;
     Ok (timestamp, message)).

(** [r"OI:(\d+)"] *)
Definition oi_pattern : Re.regex :=
  Re.Seq (Re.Lit "OI:") (Re.Group 1 (Re.Plus Re.Digit)).

Definition extract_oi_data (message : string) : result (option Z * option Z) :=
  if Str.contains "ATM CE OI:" message then
    let values := map (Re.group 1) (Re.findall oi_pattern message) in
    if (2 <=? length values)%nat then
      v0 <- Str.item values 0 ;;
      ce <- Str.int v0 ;;
      v1 <- Str.item values 1 ;;
      pe <- Str.int v1 ;;
      Ok (Some ce, Some pe)
    else Ok (None, None)
  else Ok (None, None).

(** [r"BANKNIFTY\d+[NF]\d+(\d+)(CE|PE)"] *)
Definition strike_pattern : Re.regex :=
  Re.Seq (Re.Lit "BANKNIFTY")
 (Re.Seq (Re.Plus Re.Digit)
 (Re.Seq (Re.Set_ (Re.OneOf "NF"))
 (Re.Seq (Re.Plus Re.Digit)
 (Re.Seq (Re.Group 1 (Re.Plus Re.Digit))
         (Re.Group 2 (Re.Alt (Re.Lit "CE") (Re.Lit "PE"))))))).

Definition extract_strike_data (message : string) : result (option string) :=
  if Str.contains "ATM strikes:" message then
    let strikes :=
      map (fun g => (Re.group 1 g, Re.group 2 g))
          (Re.findall strike_pattern message) in
    match strikes with
    | _ :: _ =>
        first <- Str.item strikes 0 ;;
        Ok (Some (fst first))
    | [] => Ok None
    end
  else Ok None.

(** The body of the [for] loop: the rows one line adds to [data].  The test
    [if timestamp:] holds whenever the line parsed, a [datetime] being true
    in a condition; [if strike:] is the truth value of the text. *)
Definition process_line (line : string) (data : list row) : result (list row) :=
  match parse_log_line line with
  | Some (timestamp, message) =>
      oi <- extract_oi_data message ;;
      strike <- extract_strike_data message ;;
      let data1 :=
        match oi with
        | (Some ce_oi, Some pe_oi) =>
            data ++ [OIRecord timestamp ce_oi pe_oi (ce_oi - pe_oi)]
        | _ => data
        end in
      let data2 :=
        match strike with
        | Some k => if Str.truthy k then data1 ++ [StrikeRecord timestamp k]
                    else data1
        | None => data1
        end in
      Ok data2
  | None => Ok data
  end.

Fixpoint process_lines (lines : list string) (data : list row)
  : result (list row) :=
  match lines with
  | [] => Ok data
  | line :: rest =>
      data' <- process_line line data ;;
      process_lines rest data'
  end.

Definition process_log_data (log_text : string) : result (list row) :=
  process_lines (Str.split Str.nl log_text) [].

(** ** [process_log_data] with the list [data] as an object

    The same function with the state of the interpreter written out: the
    heap holds the list objects that exist, among them the lists earlier
    invocations built.  [data = []] makes a new list object, [data.append]
    changes that object in place, and [pd.DataFrame(data)] reads what it
    holds.  An exception leaves the heap as the loop had it. *)
Definition loc : Type := nat.

Definition heap : Type := list (list row).

(** [[]]: a new list object, behind the ones that exist. *)
Definition new_list (h : heap) : loc * heap := (length h, (h ++ [[]])%list).

(** [l.append(r)] *)
Fixpoint list_append (l : loc) (r : row) (h : heap) : heap :=
  match h with
  | [] => []
  | d :: h' =>
      match l with
      | O => (d ++ [r]) :: h'
      | S l' => d :: list_append l' r h'
      end
  end.

(** What the list object [l] holds. *)
Definition contents (l : loc) (h : heap) : list row := nth l h [].

Definition process_line_at (data : loc) (line : string) (h : heap)
  : result unit * heap :=
  match parse_log_line line with
  | Some (timestamp, message) =>
      match extract_oi_data message with
      | Raise e => (Raise e, h)
      | Ok oi =>
          match extract_strike_data message with
          | Raise e => (Raise e, h)
          | Ok strike =>
              let h1 :=
                match oi with
                | (Some ce_oi, Some pe_oi) =>
                    list_append data
                      (OIRecord timestamp ce_oi pe_oi (ce_oi - pe_oi)) h
                | _ => h
                end in
              let h2 :=
                match strike with
                | Some k =>
                    if Str.truthy k
                    then list_append data (StrikeRecord timestamp k) h1
                    else h1
                | None => h1
                end in
              (Ok tt, h2)
          end
      end
  | None => (Ok tt, h)
  end.

Fixpoint for_lines (data : loc) (lines : list string) (h : heap)
  : result unit * heap :=
  match lines with
  | [] => (Ok tt, h)
  | line :: rest =>
      match process_line_at data line h with
      | (Ok _, h') => for_lines data rest h'
      | (Raise e, h') => (Raise e, h')
      end
  end.

Definition process_log_data_at (log_text : string) (h : heap)
  : result (list row) * heap :=
  let lines := Str.split Str.nl log_text in
  let '(data, h0) := new_list h in
  match for_lines data lines h0 with
  | (Ok _, h') => (Ok (contents data h'), h')
  | (Raise e, h') => (Raise e, h')
  end.

(** * The vocabulary of the properties *)

Module Spec.
Import Str Re.

(** [drop n s]: [s] without its first [n] characters. *)
Fixpoint drop (n : nat) (s : string) : string :=
  match n, s with
  | O, _ => s
  | S n', String _ s' => drop n' s'
  | S _, EmptyString => EmptyString
  end.

(** The character of a decimal digit. *)
Definition digit_char (k : Z) : ascii :=
  match k with
  | 0 => "0" | 1 => "1" | 2 => "2" | 3 => "3" | 4 => "4"
  | 5 => "5" | 6 => "6" | 7 => "7" | 8 => "8" | _ => "9"
  end%char.

(** The number a text of digits denotes (characters that are no digits
    count as zero). *)
Fixpoint decimal_from (acc : Z) (s : string) : Z :=
  match s with
  | EmptyString => acc
  | String a s' =>
      decimal_from (10 * acc + match digit_val a with Some d => d | None => 0 end) s'
  end.

Definition decimal (s : string) : Z := decimal_from 0 s.

(** The specification's wording of what the extractor scans for: an
    occurrence is the literal text [OI:] immediately followed by one or more
    decimal digits, and what is collected is its run of digits.
    [oi_at s] is the occurrence that starts at the beginning of [s]. *)
Definition oi_at (s : string) : option string :=
  match strip_prefix "OI:" s with
  | Some t => if starts_in isdigit t then Some (take_while isdigit t) else None
  | None => None
  end.

(** The digit runs of all occurrences, from left to right. *)
Fixpoint oi_occurrences (s : string) : list string :=
  match s with
  | EmptyString => []
  | String _ s' =>
      match oi_at s with
      | Some v => v :: oi_occurrences s'
      | None => oi_occurrences s'
      end
  end.

(** [no_O k s]: none of the first [k] characters of [s] is an [O]. *)
Fixpoint no_O (k : nat) (s : string) : Prop :=
  match k, s with
  | S k', String a s' => a <> "O"%char /\ no_O k' s'
  | _, _ => True
  end.

(** The parts of [strike_pattern]: the option side, the captured digits
    followed by it, and the greedy run of digits in front of both. *)
Definition side_re : regex := Group 2 (Alt (Lit "CE") (Lit "PE")).

Definition capture_re : regex := Seq (Group 1 (Plus Digit)) side_re.

Definition tail_re : regex := Seq (Plus Digit) capture_re.

(** [glue m o]: the outcome [o] of what follows a match of [m]. *)
Definition glue (m : string) (o : outcome) : outcome :=
  let '(m2, s2, g2) := o in ((m ++ m2)%string, s2, g2).

(** The outcomes of the capture after each run of digits the text can start
    with, the longest run first, the empty run last. *)
Definition after_runs (s : string) (g : groups) : list outcome :=
  flat_map (fun ms => map (glue (fst ms)) (run capture_re (snd ms) g))
           (star isdigit s).

(** The outcome is a capture of a single digit. *)
Definition one_digit (g : groups) (o : outcome) : Prop :=
  exists d side,
    isdigit d = true /\ (side = "CE" \/ side = "PE") /\
    snd o = (2%nat, side) :: (1%nat, String d EmptyString) :: g.

(** Zero-padded decimal fields of two, three and four digits. *)
Definition pad2 (n : Z) : string :=
  String (digit_char (n / 10)) (String (digit_char (n mod 10)) EmptyString).

Definition pad3 (n : Z) : string :=
  String (digit_char (n / 100)) (pad2 (n mod 100)).

Definition pad4 (n : Z) : string :=
  String (digit_char (n / 1000)) (pad3 (n mod 1000)).

(** The text [YYYY-MM-DD HH:MM:SS,mmm] of a time stamp, the milliseconds
    being those of its microseconds. *)
Definition format_timestamp (t : datetime) : string :=
  (pad4 (year t) ++ "-" ++ pad2 (month t) ++ "-" ++ pad2 (day t) ++ " " ++
   pad2 (hour t) ++ ":" ++ pad2 (minute t) ++ ":" ++ pad2 (second t) ++ "," ++
   pad3 (microsecond t / 1000))%string.

(** A valid date and time of millisecond precision. *)
Definition valid_timestamp (t : datetime) : Prop :=
  check_date (year t) (month t) (day t) = true /\
  check_time (hour t) (minute t) (second t) (microsecond t) = true /\
  microsecond t mod 1000 = 0.

(** The group [i], of expression [r], takes the two digits of [n] whatever
    follows them, as the first thing backtracking tries with success. *)
Definition field_ok (r : regex) (i : nat) (n : Z) : Prop :=
  forall rest g,
    hd_error (run r (pad2 n ++ rest) g) = Some (pad2 n, rest, (i, pad2 n) :: g).

(** [colon_free t]: no [:] of [t] is followed by a blank. *)
Fixpoint colon_free (t : string) : bool :=
  match t with
  | String a ((String b _) as t') =>
      negb (Ascii.eqb ":" a && Ascii.eqb " " b) && colon_free t'
  | _ => true
  end.

(** The row an OI pair adds, and the row a strike adds. *)
Definition oi_rows (timestamp : datetime) (oi : option Z * option Z) : list row :=
  match oi with
  | (Some ce_oi, Some pe_oi) => [OIRecord timestamp ce_oi pe_oi (ce_oi - pe_oi)]
  | _ => []
  end.

Definition strike_rows (timestamp : datetime) (strike : option string) : list row :=
  match strike with
  | Some k => if truthy k then [StrikeRecord timestamp k] else []
  | None => []
  end.

(** The value of a computation that does not raise. *)
Definition value {A : Type} (default : A) (x : result A) : A :=
  match x with
  | Ok a => a
  | Raise _ => default
  end.

(** The rows of one line. *)
Definition line_rows (line : string) : list row :=
  match parse_log_line line with
  | Some (timestamp, message) =>
      oi_rows timestamp (value (None, None) (extract_oi_data message))
        ++ strike_rows timestamp (value None (extract_strike_data message))
  | None => []
  end.

(** The rows of a text: those of its lines, line after line. *)
Definition series (log_text : string) : list row :=
  flat_map line_rows (split nl log_text).

(** The readings [extract_oi_data] converts are short enough for [int]: in
    a message with the marker and at least two occurrences, each of the
    first two has at most [max_str_digits] digits. *)
Definition convertible (message : string) : bool :=
  if contains "ATM CE OI:" message
  then match oi_occurrences message with
       | v0 :: v1 :: _ => within_limit v0 && within_limit v1
       | _ => true
       end
  else true.

(** The loop body returns on the line: the line is skipped, or its message
    is convertible. *)
Definition line_ok (line : string) : bool :=
  match parse_log_line line with
  | Some (_, message) => convertible message
  | None => true
  end.

(** The two lines of the end-to-end examples, and their time stamps. *)
Definition oi_line : string :=
  "2024-01-15 09:30:00,123: ATM CE OI:1500000 PE OI:1200000".

Definition strike_line : string :=
  "2024-01-15 09:30:00,456: ATM strikes: BANKNIFTY24JAN45000CE".

Definition stamp_123 : datetime := mk_datetime 2024 1 15 9 30 0 123000.

Definition stamp_456 : datetime := mk_datetime 2024 1 15 9 30 0 456000.

(** A reading of 4301 digits, a one and 4300 zeros, and an OI line that
    holds it. *)
Definition long_reading : string := String "1" (zeros (Z.to_nat 4300)).


(** The time stamp of a row, and the rows of each kind. *)
Definition row_timestamp (r : row) : datetime :=
  match r with
  | OIRecord timestamp _ _ _ => timestamp
  | StrikeRecord timestamp _ => timestamp
  end.

Definition is_oi (r : row) : bool :=
  match r with
  | OIRecord _ _ _ _ => true
  | StrikeRecord _ _ => false
  end.

Definition is_strike (r : row) : bool := negb (is_oi r).

(** A date and a time the constructors of [datetime] accept. *)
Definition valid_datetime (t : datetime) : Prop :=
  check_date (year t) (month t) (day t) = true /\
  check_time (hour t) (minute t) (second t) (microsecond t) = true.

(** [may r a]: the character [a] can stand in a text that [r] matches. *)
Fixpoint may (r : regex) (a : ascii) : bool :=
  match r with
  | Set_ c => mem c a
  | Lit l => mem_string a l
  | Seq r1 r2 => may r1 a || may r2 a
  | Alt r1 r2 => may r1 a || may r2 a
  | Plus c => mem c a
  | Rep c _ _ => mem c a
  | Group _ r' => may r' a
  end.

(** The characters of a time stamp: digits, whitespace, [-], [:] and [,]. *)
Definition stamp_char (a : ascii) : bool :=
  isdigit a || isspace a || mem_string a "-:,".

(** [a] is not the character [c]. *)
Definition other_than (c a : ascii) : bool := negb (Ascii.eqb a c).

(** An instrument code as [strike_pattern] reads it: [BANKNIFTY], the digits
    [d1], the letter [c], the digits [d2], the digit [d] and the option
    side. *)
Definition instrument_code (d1 : string) (c : ascii) (d2 : string)
           (d : ascii) (side : string) : string :=
  ("BANKNIFTY" ++ d1 ++ String c (d2 ++ String d side))%string.

(** What every row of a series satisfies: a time stamp in the ranges of the
    calendar and the clock, open interests that are not negative, a strike
    of one digit. *)
Definition in_ranges (t : datetime) : Prop :=
  1 <= year t <= 9999 /\ 1 <= month t <= 12 /\
  1 <= day t <= days_in_month (year t) (month t) /\
  0 <= hour t <= 23 /\ 0 <= minute t <= 59 /\ 0 <= second t <= 59 /\
  0 <= microsecond t <= 999999.

Definition well_formed_row (r : row) : Prop :=
  in_ranges (row_timestamp r) /\
  match r with
  | OIRecord _ ce_oi pe_oi oi_difference =>
      0 <= ce_oi /\ 0 <= pe_oi /\ oi_difference = ce_oi - pe_oi
  | StrikeRecord _ strike =>
      exists d, isdigit d = true /\ strike = String d EmptyString
  end.

(** The line adds a row to the series. *)
Definition adds_rows (line : string) : bool :=
  match line_rows line with
  | [] => false
  | _ :: _ => true
  end.

(** The line holds no newline. *)
Definition one_line (line : string) : Prop := contains nl line = false.

(** The two kinds of line the logging program writes, and the row each one
    stands for. *)
Inductive entry : Type :=
| OIEntry (t : datetime) (u v : string)
| StrikeEntry (t : datetime) (d1 : string) (c : ascii) (d2 : string)
              (d : ascii) (side : string).

Definition render (e : entry) : string :=
  match e with
  | OIEntry t u v =>
      format_timestamp t ++ ": " ++ "ATM CE OI:" ++ u ++ " PE OI:" ++ v
  | StrikeEntry t d1 c d2 d side =>
      format_timestamp t ++ ": " ++ "ATM strikes: " ++
      instrument_code d1 c d2 d side
  end%string.

Definition row_of (e : entry) : row :=
  match e with
  | OIEntry t u v => OIRecord t (decimal u) (decimal v) (decimal u - decimal v)
  | StrikeEntry t _ _ _ d _ => StrikeRecord t (String d EmptyString)
  end.

(** A non-empty run of decimal digits. *)
Definition digits (s : string) : Prop :=
  every isdigit s = true /\ s <> EmptyString.

(** An open interest as the log holds it: a non-empty run of digits that
    [int] converts. *)
Definition reading (s : string) : Prop :=
  digits s /\ within_limit s = true.

Definition entry_ok (e : entry) : Prop :=
  match e with
  | OIEntry t u v => valid_timestamp t /\ reading u /\ reading v
  | StrikeEntry t d1 c d2 d side =>
      valid_timestamp t /\ digits d1 /\ (c = "N"%char \/ c = "F"%char) /\
      digits d2 /\ isdigit d = true /\
      (side = "CE"%string \/ side = "PE"%string)
  end.

(** A time stamp written with any fraction of a second: the text
    [YYYY-MM-DD HH:MM:SS] of [t], a comma and the digits [f]; and the time
    stamp it denotes, the digits [f] being the first of the six digits of
    the microseconds. *)
Definition format_seconds (t : datetime) : string :=
  (pad4 (year t) ++ "-" ++ pad2 (month t) ++ "-" ++ pad2 (day t) ++ " " ++
   pad2 (hour t) ++ ":" ++ pad2 (minute t) ++ ":" ++ pad2 (second t))%string.

Definition format_fraction (t : datetime) (f : string) : string :=
  (format_seconds t ++ "," ++ f)%string.

Definition with_fraction (t : datetime) (f : string) : datetime :=
  mk_datetime (year t) (month t) (day t) (hour t) (minute t) (second t)
              (decimal f * 10 ^ Z.of_nat (6 - String.length f)).

End Spec.

(** * Properties *)

(** ** Strings *)

Module StrFacts.
Import Str Spec.

Lemma append_assoc (s t u : string) :
  ((s ++ t) ++ u)%string = (s ++ (t ++ u))%string.
Proof. induction s as [|a s IH]; simpl; [reflexivity | now rewrite IH]. Qed.

Lemma strip_prefix_app (p s : string) : strip_prefix p (p ++ s) = Some s.
Proof.
  induction p as [|a p IH]; simpl; [reflexivity|].
  now rewrite Ascii.eqb_refl.
Qed.

Lemma strip_prefix_Some (p s t : string) :
  strip_prefix p s = Some t -> s = (p ++ t)%string.
Proof.
  revert s; induction p as [|a p IH]; simpl; intros s H.
  - now inversion H.
  - destruct s as [|b s]; [discriminate|].
    destruct (Ascii.eqb_spec a b) as [->|]; [|discriminate].
    now rewrite (IH _ H).
Qed.

Lemma startswith_app (p s : string) : startswith p (p ++ s) = true.
Proof. unfold startswith. now rewrite strip_prefix_app. Qed.

(** *** [split] and [join] *)

Lemma drop_app_length (p s : string) : drop (String.length p) (p ++ s) = s.
Proof. induction p as [|a p IH]; simpl; auto. Qed.

Lemma split_go_nonempty (sep : string) (k : nat) (s : string) :
  split_go sep k s <> [].
Proof.
  revert k; induction s as [|a s IH]; intros k; simpl; [discriminate|].
  destruct k as [|k]; [|apply IH].
  destruct (startswith sep (String a s)); [discriminate|].
  destruct (split_go sep 0 s); discriminate.
Qed.

Lemma join_cons_char (sep : string) (a : ascii) (f : string) (fs : list string) :
  join sep (String a f :: fs) = String a (join sep (f :: fs)).
Proof. destruct fs; reflexivity. Qed.

Lemma join_cons_empty (sep : string) (fs : list string) :
  fs <> [] -> join sep (EmptyString :: fs) = (sep ++ join sep fs)%string.
Proof. destruct fs; [congruence | reflexivity]. Qed.

(** Joining the fields of a text with the separator gives the text back:
    after [k] characters of a separator have been passed over, what is
    joined is the text without them. *)
Lemma join_split_go (sep : string) (k : nat) (s : string) :
  sep <> EmptyString ->
  join sep (split_go sep k s) =
  match k with O => s | S _ => drop k s end.
Proof.
  intros Hsep. revert k; induction s as [|a s IH]; intros k.
  - destruct k; reflexivity.
  - simpl split_go. destruct k as [|k].
    + destruct (startswith sep (String a s)) eqn:E.
      * unfold startswith in E.
        destruct (strip_prefix sep (String a s)) as [t|] eqn:Et; [|discriminate].
        apply strip_prefix_Some in Et.
        rewrite join_cons_empty by apply split_go_nonempty.
        rewrite IH. destruct sep as [|c sep]; simpl in *.
        -- congruence.
        -- inversion Et; subst.
           destruct (String.length sep) eqn:El.
           ++ destruct sep; [reflexivity | discriminate].
           ++ rewrite <- El. now rewrite drop_app_length.
      * specialize (IH 0%nat).
        destruct (split_go sep 0 s) as [|f fs] eqn:Es.
        -- now apply split_go_nonempty in Es.
        -- rewrite join_cons_char. now rewrite IH.
    + rewrite IH. destruct k; reflexivity.
Qed.

Lemma join_split (sep s : string) :
  sep <> EmptyString -> join sep (split sep s) = s.
Proof. apply (join_split_go sep 0 s). Qed.

Lemma split_go_skip (sep p s : string) :
  split_go sep (String.length p) (p ++ s) = split_go sep 0 s.
Proof. induction p as [|a p IH]; simpl; auto. Qed.

(** The text starts with the separator: an empty first field. *)
Lemma split_sep_app (sep s : string) :
  sep <> EmptyString ->
  split sep (sep ++ s) = EmptyString :: split sep s.
Proof.
  intros Hsep. destruct sep as [|c sep]; [congruence|].
  unfold split. change (String c sep ++ s)%string with (String c (sep ++ s)).
  simpl split_go.
  change (String c (sep ++ s)) with (String c sep ++ s)%string.
  rewrite startswith_app. f_equal. apply split_go_skip.
Qed.

(** A character in front of a text that does not start a separator joins
    the first field. *)
Lemma split_cons (sep : string) (a : ascii) (s : string) :
  startswith sep (String a s) = false ->
  split sep (String a s) =
  String a (hd EmptyString (split sep s)) :: tl (split sep s).
Proof.
  intros H. unfold split. simpl. rewrite H.
  destruct (split_go sep 0 s) eqn:E; [|reflexivity].
  now apply split_go_nonempty in E.
Qed.

End StrFacts.

(** ** Digits *)

Module DigitFacts.
Import Str Spec StrFacts.

Lemma isdigit_digit_char (k : Z) : isdigit (digit_char k) = true.
Proof.
  destruct k as [|p|p]; try reflexivity.
  do 4 (try destruct p as [p|p|]; try reflexivity).
Qed.

Lemma digit_val_digit_char (k : Z) :
  0 <= k <= 9 -> digit_val (digit_char k) = Some k.
Proof.
  intros H.
  assert (E : k = 0 \/ k = 1 \/ k = 2 \/ k = 3 \/ k = 4 \/
              k = 5 \/ k = 6 \/ k = 7 \/ k = 8 \/ k = 9) by lia.
  repeat destruct E as [->|E]; try subst k; reflexivity.
Qed.

Lemma digit_val_range (a : ascii) (d : Z) :
  digit_val a = Some d -> 0 <= d <= 9.
Proof.
  destruct a as [[] [] [] [] [] [] [] []]; cbv; intros H;
    try discriminate; injection H as <-; split; discriminate.
Qed.

Lemma isdigit_not_blank (a : ascii) : isdigit a = true -> isblank a = false.
Proof.
  destruct a as [[] [] [] [] [] [] [] []]; intros H;
    try discriminate; reflexivity.
Qed.

Lemma isdigit_not_space (a : ascii) : isdigit a = true -> isspace a = false.
Proof.
  destruct a as [[] [] [] [] [] [] [] []]; intros H;
    try discriminate; reflexivity.
Qed.

Lemma isdigit_in_range (a : ascii) :
  isdigit a = true -> Re.mem (Re.Range "0" "9") a = true.
Proof.
  destruct a as [[] [] [] [] [] [] [] []]; intros H;
    try discriminate; reflexivity.
Qed.

(** A digit is different from any character that is not one. *)
Lemma eqb_digit_other (a b : ascii) :
  isdigit a = true -> isdigit b = false -> Ascii.eqb b a = false.
Proof.
  intros Ha Hb. destruct (Ascii.eqb_spec b a) as [->|]; congruence.
Qed.

(** *** [int] on runs of digits *)

Lemma digits_value_decimal (s : string) (acc : Z) :
  every isdigit s = true -> digits_value acc s = Some (decimal_from acc s).
Proof.
  revert acc; induction s as [|a s IH]; intros acc H;
    cbn [every digits_value decimal_from] in *.
  - reflexivity.
  - apply andb_prop in H as [Ha Hs]. unfold isdigit in Ha.
    destruct (digit_val a); [now apply IH | discriminate].
Qed.

Lemma decimal_from_nonneg (s : string) (acc : Z) :
  0 <= acc -> 0 <= decimal_from acc s.
Proof.
  revert acc; induction s as [|a s IH]; intros acc H; cbn [decimal_from];
    [assumption|].
  apply IH. destruct (digit_val a) as [d|] eqn:E; [|lia].
  apply digit_val_range in E. lia.
Qed.

Lemma decimal_nonneg (s : string) : 0 <= decimal s.
Proof. apply decimal_from_nonneg. lia. Qed.

Lemma lstrip_digits (s : string) : every isdigit s = true -> lstrip s = s.
Proof.
  destruct s as [|a s]; simpl; [reflexivity|]. intros H.
  apply andb_prop in H as [Ha _]. now rewrite (isdigit_not_blank a Ha).
Qed.

Lemma rstrip_digits (s : string) : every isdigit s = true -> rstrip s = s.
Proof.
  induction s as [|a s IH]; simpl; [reflexivity|]. intros H.
  apply andb_prop in H as [Ha Hs]. rewrite (IH Hs).
  destruct s; [now rewrite (isdigit_not_blank a Ha) | reflexivity].
Qed.

(** [int] on a non-empty run of digits: the number it denotes, or
    [ValueError] when the run is longer than the limit. *)
Lemma int_reading (s : string) :
  every isdigit s = true -> s <> EmptyString ->
  int s = if within_limit s then Ok (decimal s) else Raise ValueError.
Proof.
  intros H Hne. unfold int. rewrite (lstrip_digits s H), (rstrip_digits s H).
  destruct s as [|a s]; [congruence|].
  now rewrite (digits_value_decimal _ 0 H).
Qed.

Lemma int_digits (s : string) :
  every isdigit s = true -> s <> EmptyString -> within_limit s = true ->
  int s = Ok (decimal s).
Proof. intros H Hne Hl. now rewrite int_reading, Hl. Qed.

End DigitFacts.

(** ** The backtracking matcher *)

Module ReFacts.
Import Str Spec StrFacts Re.

(** *** The first element of a list of outcomes *)

Lemma hd_error_app {A : Type} (l1 l2 : list A) :
  hd_error (l1 ++ l2) =
  match hd_error l1 with Some x => Some x | None => hd_error l2 end.
Proof. destruct l1; reflexivity. Qed.

Lemma hd_error_map {A B : Type} (f : A -> B) (l : list A) :
  hd_error (map f l) = option_map f (hd_error l).
Proof. destruct l; reflexivity. Qed.

Lemma hd_error_In {A : Type} (l : list A) (x : A) :
  hd_error l = Some x -> In x l.
Proof. destruct l; simpl; [discriminate|]. intros [= ->]. now left. Qed.

Lemma hd_error_None {A : Type} (l : list A) : hd_error l = None -> l = [].
Proof. destruct l; [reflexivity | discriminate]. Qed.

(** *** Greedy repetition *)

Section Greedy.

Variable p : ascii -> bool.

Lemma take_drop_while (s : string) :
  s = (take_while p s ++ drop_while p s)%string.
Proof.
  induction s as [|a s IH]; simpl; [reflexivity|].
  destruct (p a); simpl; [now rewrite <- IH | reflexivity].
Qed.

Lemma every_take_while (s : string) :
  every p (take_while p s) = true.
Proof.
  induction s as [|a s IH]; simpl; [reflexivity|].
  destruct (p a) eqn:E; simpl; [now rewrite E | reflexivity].
Qed.

(** The longest run comes first. *)
Lemma star_head (s : string) :
  hd_error (star p s) = Some (take_while p s, drop_while p s).
Proof.
  induction s as [|a s IH]; simpl; [reflexivity|].
  destruct (p a); [|reflexivity].
  rewrite hd_error_app, hd_error_map, IH. reflexivity.
Qed.

Lemma star_sound (s m r : string) :
  In (m, r) (star p s) -> s = (m ++ r)%string /\ every p m = true.
Proof.
  revert m r; induction s as [|a s IH]; intros m r; simpl.
  - intros [[= <- <-]|[]]. now split.
  - destruct (p a) eqn:E.
    + rewrite in_app_iff, in_map_iff.
      intros [[[m' r'] [[= <- <-] Hin]]|[[= <- <-]|[]]].
      * destruct (IH _ _ Hin) as [-> Hm]. simpl. now rewrite E.
      * now split.
    + intros [[= <- <-]|[]]. now split.
Qed.

(** The empty run is always among the outcomes. *)
Lemma star_empty (s : string) :
  In (EmptyString, s) (star p s).
Proof.
  destruct s as [|a s]; simpl; [now left|].
  destruct (p a); [|now left].
  apply in_or_app. right. now left.
Qed.

Lemma plus_star (s m r : string) :
  In (m, r) (plus p s) <-> In (m, r) (star p s) /\ m <> EmptyString.
Proof.
  destruct s as [|a s]; simpl.
  - split; [intros [] | intros [[[= <- <-]|[]] Hne]; congruence].
  - destruct (p a).
    + rewrite in_app_iff, !in_map_iff. split.
      * intros [[m' r'] [[= <- <-] Hin]]. split; [|discriminate].
        left. now exists (m', r').
      * intros [[Hin|[[= <- <-]|[]]] Hne]; [assumption | congruence].
    + split; [intros [] | intros [[[= <- <-]|[]] Hne]; congruence].
Qed.

Lemma plus_sound (s m r : string) :
  In (m, r) (plus p s) ->
  s = (m ++ r)%string /\ every p m = true /\ m <> EmptyString.
Proof.
  intros H. apply plus_star in H as [H Hne].
  apply star_sound in H as [-> Hm]. now repeat split.
Qed.

Lemma plus_head (s : string) :
  hd_error (plus p s) =
  if starts_in p s then Some (take_while p s, drop_while p s) else None.
Proof.
  destruct s as [|a s]; simpl; [reflexivity|].
  destruct (p a); [|reflexivity].
  now rewrite hd_error_map, star_head.
Qed.

Lemma plus_nil (s : string) :
  starts_in p s = false -> plus p s = [].
Proof. destruct s as [|a s]; simpl; [reflexivity|]. now intros ->. Qed.

(** A run of [p] followed by a text that does not start in [p] is the
    longest run. *)
Lemma take_while_app (m r : string) :
  every p m = true -> starts_in p r = false ->
  take_while p (m ++ r) = m /\ drop_while p (m ++ r) = r.
Proof.
  intros Hm Hr. induction m as [|a m IH]; simpl in *.
  - destruct r as [|b r]; simpl in *; [now split|]. now rewrite Hr.
  - apply andb_prop in Hm as [Ha Hm]. rewrite Ha.
    destruct (IH Hm) as [-> ->]. now split.
Qed.

Lemma starts_in_take_while (t : string) :
  starts_in p t = true -> take_while p t <> EmptyString.
Proof. destruct t as [|a t]; simpl; [discriminate|]. now intros ->. Qed.

Lemma take_while_nil (s : string) :
  starts_in p s = false -> take_while p s = EmptyString.
Proof. destruct s as [|a s]; simpl; [reflexivity|]. now intros ->. Qed.

End Greedy.

(** *** Sequences *)

Lemma run_seq_head (r1 r2 : regex) (s : string) (g : groups)
      (m1 s1 : string) (g1 : groups) (m2 s2 : string) (g2 : groups) :
  hd_error (run r1 s g) = Some (m1, s1, g1) ->
  hd_error (run r2 s1 g1) = Some (m2, s2, g2) ->
  hd_error (run (Seq r1 r2) s g) = Some ((m1 ++ m2)%string, s2, g2).
Proof.
  intros H1 H2. cbn [run].
  destruct (run r1 s g) as [|o1 l1]; [discriminate|].
  injection H1 as ->. cbn [flat_map].
  destruct (run r2 s1 g1) as [|o2 l2]; [discriminate|].
  injection H2 as ->. reflexivity.
Qed.

Lemma run_group_head (i : nat) (r : regex) (s : string) (g : groups)
      (m s' : string) (g' : groups) :
  hd_error (run r s g) = Some (m, s', g') ->
  hd_error (run (Group i r) s g) = Some (m, s', (i, m) :: g').
Proof. intros H. cbn [run]. now rewrite hd_error_map, H. Qed.

Lemma run_lit_head (l s : string) (g : groups) :
  hd_error (run (Lit l) (l ++ s) g) = Some (l, s, g).
Proof. cbn [run]. now rewrite strip_prefix_app. Qed.

(** Every outcome splits the text into what was matched and what is left. *)
Lemma run_sound (r : regex) (s : string) (g : groups)
      (m s' : string) (g' : groups) :
  In (m, s', g') (run r s g) -> s = (m ++ s')%string.
Proof.
  revert s g m s' g'; induction r as [c|l|r1 IH1 r2 IH2|r1 IH1 r2 IH2|c|c lo hi|i r IH];
    intros s g m s' g'; cbn [run].
  - destruct s as [|a s]; [intros []|].
    destruct (mem c a); [|intros []]. now intros [[= <- <- <-]|[]].
  - destruct (strip_prefix l s) as [t|] eqn:E; [|intros []].
    intros [[= <- <- <-]|[]]. now apply strip_prefix_Some.
  - rewrite in_flat_map. intros [[[m1 s1] g1] [H1 H2]].
    apply in_map_iff in H2 as [[[m2 s2] g2] [[= <- <- <-] H2]].
    rewrite (IH1 _ _ _ _ _ H1), (IH2 _ _ _ _ _ H2). now rewrite append_assoc.
  - rewrite in_app_iff. intros [H|H]; eauto.
  - rewrite in_map_iff. intros [[m0 r0] [[= <- <- <-] H]].
    now apply plus_sound in H.
  - rewrite in_map_iff. intros [[m0 r0] [[= <- <- <-] H]].
    revert H. generalize (mem c). intros p. simpl.
    revert lo s m0 r0. induction hi as [|hi IHhi]; intros lo s m0 r0; simpl.
    + destruct lo; [intros [[= <- <-]|[]]; reflexivity | intros []].
    + destruct s as [|a s].
      * destruct lo; [intros [[= <- <-]|[]]; reflexivity | intros []].
      * destruct (p a).
        -- rewrite in_app_iff, in_map_iff.
           intros [[[m1 r1] [[= <- <-] H]]|H].
           ++ simpl. now rewrite (IHhi _ _ _ _ H).
           ++ destruct lo; [destruct H as [[= <- <-]|[]]; reflexivity | destruct H].
        -- destruct lo; [intros [[= <- <-]|[]]; reflexivity | intros []].
  - rewrite in_map_iff. intros [[[m0 s0] g0] [[= <- <- <-] H]]. eauto.
Qed.

End ReFacts.

(** ** The OI extractor *)

Module OIFacts.
Import Str Spec StrFacts DigitFacts Re ReFacts.

(** The first match of [OI:(\d+)] at the start of a text. *)
Lemma match_oi_pattern (s : string) :
  match_ oi_pattern s =
  match strip_prefix "OI:" s with
  | Some t =>
      if starts_in isdigit t
      then Some (("OI:" ++ take_while isdigit t)%string, drop_while isdigit t,
                 [(1%nat, take_while isdigit t)])
      else None
  | None => None
  end.
Proof.
  unfold match_, oi_pattern. cbn [run].
  destruct (strip_prefix "OI:" s) as [t|]; [|reflexivity].
  cbn [flat_map]. rewrite app_nil_r, !hd_error_map.
  change (mem Digit) with isdigit. rewrite plus_head.
  destruct (starts_in isdigit t); reflexivity.
Qed.

Lemma no_O_digits (m r : string) :
  every isdigit m = true -> no_O (String.length m) (m ++ r).
Proof.
  induction m as [|a m IH]; simpl; [trivial|]. intros H.
  apply andb_prop in H as [Ha Hm]. split; [|now apply IH].
  intros ->. discriminate.
Qed.

Lemma oi_at_not_O (a : ascii) (s : string) :
  a <> "O"%char -> oi_at (String a s) = None.
Proof.
  intros H. unfold oi_at. cbn [strip_prefix].
  destruct (Ascii.eqb_spec "O" a) as [<-|]; [congruence | reflexivity].
Qed.

(** The scan of [re.findall] passes over the text of a match; no occurrence
    starts inside it, so the matches found are all the occurrences. *)
Lemma findall_go_oi (k : nat) (s : string) :
  no_O k s ->
  map (group 1) (findall_go oi_pattern k s) = oi_occurrences s.
Proof.
  revert k; induction s as [|a s IH]; intros k Hk.
  - destruct k; reflexivity.
  - cbn [findall_go oi_occurrences]. destruct k as [|k].
    + rewrite match_oi_pattern. unfold oi_at.
      destruct (strip_prefix "OI:" (String a s)) as [t|] eqn:Et;
        [|now apply IH].
      destruct (starts_in isdigit t) eqn:Ed; [|now apply IH].
      cbn [map group Nat.eqb]. f_equal. apply IH.
      apply strip_prefix_Some in Et. injection Et as -> ->.
      cbn [String.length Nat.pred append no_O].
      split; [discriminate|]. split; [discriminate|].
      rewrite (take_drop_while isdigit t) at 2.
      apply no_O_digits, every_take_while.
    + destruct Hk as [Ha Hk]. rewrite (oi_at_not_O a s Ha). now apply IH.
Qed.

Lemma findall_oi (s : string) :
  map (group 1) (findall oi_pattern s) = oi_occurrences s.
Proof. now apply findall_go_oi. Qed.

(** Every collected run is a non-empty run of digits. *)
Lemma oi_occurrences_digits (s v : string) :
  In v (oi_occurrences s) -> every isdigit v = true /\ v <> EmptyString.
Proof.
  induction s as [|a s IH]; cbn [oi_occurrences]; [intros []|].
  unfold oi_at.
  destruct (strip_prefix "OI:" (String a s)) as [t|]; [|assumption].
  destruct (starts_in isdigit t) eqn:Ed; [|assumption].
  intros [<-|H]; [|auto].
  split; [apply every_take_while | now apply starts_in_take_while].
Qed.

(** What [extract_oi_data] computes, in terms of the occurrences: the
    numbers of the first two, and [ValueError] when one of the two is longer
    than [int] converts. *)
Lemma extract_oi_data_spec (message : string) :
  extract_oi_data message =
  if contains "ATM CE OI:" message
  then match oi_occurrences message with
       | v0 :: v1 :: _ =>
           if within_limit v0 && within_limit v1
           then Ok (Some (decimal v0), Some (decimal v1))
           else Raise ValueError
       | _ => Ok (None, None)
       end
  else Ok (None, None).
Proof.
  unfold extract_oi_data.
  destruct (contains "ATM CE OI:" message); [|reflexivity].
  rewrite findall_oi.
  pose proof (oi_occurrences_digits message) as Hd.
  destruct (oi_occurrences message) as [|v0 [|v1 l]]; try reflexivity.
  cbn [length Nat.leb item nth_error bind].
  destruct (Hd v0) as [H0 N0]; [now left|].
  destruct (Hd v1) as [H1 N1]; [right; now left|].
  rewrite (int_reading v0 H0 N0), (int_reading v1 H1 N1).
  now destruct (within_limit v0), (within_limit v1).
Qed.

(** The extractor returns exactly when the readings it converts are short
    enough. *)
Lemma extract_oi_data_Ok (message : string) :
  convertible message = true -> exists oi, extract_oi_data message = Ok oi.
Proof.
  rewrite extract_oi_data_spec. unfold convertible.
  destruct (contains "ATM CE OI:" message); [|now eexists].
  destruct (oi_occurrences message) as [|v0 [|v1 l]]; try now eexists.
  intros ->. now eexists.
Qed.

Lemma convertible_Ok (message : string) (oi : option Z * option Z) :
  extract_oi_data message = Ok oi -> convertible message = true.
Proof.
  rewrite extract_oi_data_spec. unfold convertible.
  destruct (contains "ATM CE OI:" message); [|reflexivity].
  destruct (oi_occurrences message) as [|v0 [|v1 l]]; try reflexivity.
  now destruct (within_limit v0 && within_limit v1).
Qed.

Lemma extract_oi_data_Raise (message : string) :
  convertible message = false -> extract_oi_data message = Raise ValueError.
Proof.
  rewrite extract_oi_data_spec. unfold convertible.
  destruct (contains "ATM CE OI:" message); [|discriminate].
  destruct (oi_occurrences message) as [|v0 [|v1 l]]; try discriminate.
  now intros ->.
Qed.

End OIFacts.

(** ** The strike extractor *)

Module StrikeFacts.
Import Str Spec StrFacts DigitFacts Re ReFacts.

Lemma strike_pattern_parts :
  strike_pattern =
  Seq (Lit "BANKNIFTY") (Seq (Plus Digit) (Seq (Set_ (OneOf "NF")) tail_re)).
Proof. reflexivity. Qed.

Lemma flat_map_map {A B C : Type} (f : B -> list C) (h : A -> B) (l : list A) :
  flat_map f (map h l) = flat_map (fun x => f (h x)) l.
Proof. induction l as [|x l IH]; simpl; [reflexivity | now rewrite IH]. Qed.

Lemma map_flat_map {A B C : Type} (f : A -> list B) (h : B -> C) (l : list A) :
  map h (flat_map f l) = flat_map (fun x => map h (f x)) l.
Proof.
  induction l as [|x l IH]; simpl; [reflexivity|].
  now rewrite map_app, IH.
Qed.

Lemma hd_error_flat_map {A B : Type} (f : A -> list B) (l : list A) (y : B) :
  hd_error (flat_map f l) = Some y ->
  exists x, In x l /\ hd_error (f x) = Some y.
Proof.
  induction l as [|x l IH]; simpl; [discriminate|].
  rewrite hd_error_app. destruct (hd_error (f x)) eqn:E.
  - intros [= ->]. exists x. auto.
  - intros H. destruct (IH H) as [x' [Hin Hx']]. exists x'. auto.
Qed.

(** The first outcome of a sequence: some outcome of its first part, then
    the first outcome of what follows it. *)
Lemma run_seq_hd_inv (r1 r2 : regex) (s : string) (g : groups)
      (m r : string) (g' : groups) :
  hd_error (run (Seq r1 r2) s g) = Some (m, r, g') ->
  exists m1 s1 g1 m2,
    In (m1, s1, g1) (run r1 s g) /\
    hd_error (run r2 s1 g1) = Some (m2, r, g') /\
    m = (m1 ++ m2)%string.
Proof.
  cbn [run]. intros H. apply hd_error_flat_map in H as [[[m1 s1] g1] [Hin H]].
  rewrite hd_error_map in H.
  destruct (hd_error (run r2 s1 g1)) as [[[m2 s2] g2]|] eqn:E; [|discriminate].
  injection H as <- <- <-. exists m1, s1, g1, m2. auto.
Qed.

Lemma run_seq_plus (c : cset) (r : regex) (s : string) (g : groups) :
  run (Seq (Plus c) r) s g =
  flat_map (fun ms => map (glue (fst ms)) (run r (snd ms) g)) (plus (mem c) s).
Proof. cbn [run]. now rewrite flat_map_map. Qed.

(** *** The option side *)

Lemma side_sound (s : string) (g : groups) (m r : string) (g' : groups) :
  In (m, r, g') (run side_re s g) ->
  (m = "CE" \/ m = "PE") /\ s = (m ++ r)%string /\ g' = (2%nat, m) :: g.
Proof.
  intros H. pose proof (run_sound _ _ _ _ _ _ H) as Hs.
  unfold side_re in H. cbn [run] in H.
  apply in_map_iff in H as [[[m0 s0] g0] [[= <- <- <-] H]].
  apply in_app_iff in H as [H|H];
    (destruct (strip_prefix _ s); [|destruct H]);
    destruct H as [[= <- <- <-]|[]]; auto.
Qed.

(** A text the option side matches does not start with a digit. *)
Lemma side_not_digit (s : string) (g : groups) (o : outcome) :
  In o (run side_re s g) -> starts_in isdigit s = false.
Proof.
  destruct o as [[m r] g']. intros H.
  apply side_sound in H as [[-> | ->] [-> _]]; reflexivity.
Qed.

(** Whether the option side matches does not depend on the groups. *)
Lemma side_groups (s : string) (g1 g2 : groups) :
  run side_re s g1 = [] -> run side_re s g2 = [].
Proof.
  unfold side_re. cbn [run].
  destruct (strip_prefix "CE" s); [discriminate|].
  destruct (strip_prefix "PE" s); [discriminate | reflexivity].
Qed.

(** *** The captured digits and the option side *)

(** The capture is the whole run of digits the text starts with: the option
    side has to follow it, and it does not start with a digit. *)
Lemma capture_sound (s : string) (g : groups) (m r : string) (g' : groups) :
  In (m, r, g') (run capture_re s g) ->
  exists k side,
    m = (k ++ side)%string /\ g' = (2%nat, side) :: (1%nat, k) :: g /\
    (side = "CE" \/ side = "PE") /\
    k = take_while isdigit s /\ k <> EmptyString /\
    drop_while isdigit s = (side ++ r)%string.
Proof.
  unfold capture_re. cbn [run]. rewrite in_flat_map.
  intros [[[k s1] g1] [H1 H2]].
  apply in_map_iff in H1 as [[[k0 s0] g0] [[= <- <- <-] H1]].
  apply in_map_iff in H1 as [[k1 s2] [[= <- <- <-] H1]].
  apply in_map_iff in H2 as [[[side r0] g2] [[= <- <- <-] H2]].
  cbn [fst snd] in *. change (mem Digit) with isdigit in H1.
  apply plus_sound in H1 as [-> [Hk Hne]].
  pose proof (side_not_digit _ _ _ H2) as Hnd.
  apply side_sound in H2 as [Hside [-> ->]].
  destruct (take_while_app isdigit k1 (side ++ r0) Hk Hnd) as [E1 E2].
  exists k1, side. rewrite E1, E2. auto 10.
Qed.

(** When the text starts with a digit and the option side follows its run
    of digits, the capture succeeds. *)
Lemma capture_complete (s : string) (g g0 : groups) :
  starts_in isdigit s = true ->
  run side_re (drop_while isdigit s) g0 <> [] ->
  run capture_re s g <> [].
Proof.
  intros Hd Hside Hnil.
  assert (Hs : run side_re (drop_while isdigit s)
                 ((1%nat, take_while isdigit s) :: g) <> []).
  { intros E. apply Hside. now apply (side_groups _ _ g0) in E. }
  destruct (run side_re (drop_while isdigit s) ((1%nat, take_while isdigit s) :: g))
    as [|[[m2 s2] g2] l] eqn:E; [congruence|].
  assert (H : hd_error (run capture_re s g) =
              Some ((take_while isdigit s ++ m2)%string, s2, g2)).
  { unfold capture_re.
    apply (run_seq_head _ _ _ _ (take_while isdigit s) (drop_while isdigit s)
             ((1%nat, take_while isdigit s) :: g)).
    - apply run_group_head. cbn [run]. rewrite hd_error_map.
      change (mem Digit) with isdigit. rewrite plus_head, Hd. reflexivity.
    - now rewrite E. }
  rewrite Hnil in H. discriminate.
Qed.

Lemma capture_nil (s : string) (g : groups) :
  starts_in isdigit s = false -> run capture_re s g = [].
Proof.
  intros H. unfold capture_re. cbn [run].
  change (mem Digit) with isdigit. now rewrite (plus_nil _ _ H).
Qed.

Lemma side_complete (side r : string) (g : groups) :
  side = "CE" \/ side = "PE" -> run side_re (side ++ r) g <> [].
Proof. intros [-> | ->]; discriminate. Qed.

(** *** The greedy run in front of the capture *)

Lemma after_runs_shift (a : ascii) (s : string) (g : groups) :
  flat_map (fun ms => map (glue (fst ms)) (run capture_re (snd ms) g))
           (map (fun ms => (String a (fst ms), snd ms)) (star isdigit s)) =
  map (glue (String a EmptyString)) (after_runs s g).
Proof.
  unfold after_runs. rewrite flat_map_map, map_flat_map.
  apply flat_map_ext. intros [m r]. cbn [fst snd].
  rewrite map_map. apply map_ext. now intros [[m2 s2] g2].
Qed.

Lemma after_runs_cons (a : ascii) (s : string) (g : groups) :
  isdigit a = true ->
  after_runs (String a s) g =
  map (glue (String a EmptyString)) (after_runs s g)
    ++ map (glue EmptyString) (run capture_re (String a s) g).
Proof.
  intros Ha. unfold after_runs at 1. cbn [star]. rewrite Ha.
  rewrite flat_map_app, after_runs_shift. cbn [flat_map fst snd].
  now rewrite app_nil_r.
Qed.

(** Backtracking gives the greedy run every digit but the last: the first
    outcome captures one digit. *)
Lemma after_runs_head (s : string) (g : groups) (o : outcome) :
  hd_error (after_runs s g) = Some o -> one_digit g o.
Proof.
  revert o; induction s as [|a s IH]; intros o.
  - discriminate.
  - destruct (isdigit a) eqn:Ha.
    + rewrite (after_runs_cons a s g Ha), hd_error_app, hd_error_map.
      destruct (hd_error (after_runs s g)) as [o'|] eqn:E.
      * intros [= <-]. destruct (IH o' eq_refl) as [d [side [Hd [Hs Hg]]]].
        exists d, side. destruct o' as [[m r] g']. auto.
      * apply hd_error_None in E. rewrite hd_error_map.
        destruct (hd_error (run capture_re (String a s) g))
          as [[[m r] g']|] eqn:Ec; [|discriminate].
        intros [= <-]. apply hd_error_In in Ec.
        apply capture_sound in Ec as [k [side [-> [-> [Hs [Hk [_ Hr]]]]]]].
        cbn [take_while drop_while] in Hk, Hr. rewrite Ha in Hk, Hr.
        destruct (starts_in isdigit s) eqn:Hd.
        -- exfalso.
           assert (Hc : run capture_re s g <> []).
           { apply (capture_complete s g g Hd). rewrite Hr.
             now apply side_complete. }
           destruct (run capture_re s g) as [|o1 l] eqn:E1; [congruence|].
           assert (Hin : In (glue EmptyString o1) (after_runs s g)).
           { unfold after_runs. apply in_flat_map. exists (EmptyString, s).
             split; [apply star_empty|]. cbn [fst snd]. rewrite E1. now left. }
           rewrite E in Hin. destruct Hin.
        -- rewrite (take_while_nil _ _ Hd) in Hk. subst k.
           exists a, side. auto.
    + unfold after_runs. cbn [star]. rewrite Ha. cbn [flat_map snd].
      rewrite capture_nil; [discriminate|]. exact Ha.
Qed.

(** The first match of [\d+(\d+)(CE|PE)]: a non-empty run of digits, one
    more digit, which is the capture, and the option side. *)
Lemma tail_first (s : string) (g : groups) (m r : string) (g' : groups) :
  hd_error (run tail_re s g) = Some (m, r, g') ->
  exists m1 d side,
    m = (m1 ++ String d side)%string /\
    every isdigit m1 = true /\ m1 <> EmptyString /\ isdigit d = true /\
    (side = "CE" \/ side = "PE") /\
    g' = (2%nat, side) :: (1%nat, String d EmptyString) :: g.
Proof.
  intros H.
  assert (H1 : one_digit g (m, r, g')).
  { unfold tail_re in H. rewrite run_seq_plus in H.
    change (mem Digit) with isdigit in H.
    destruct s as [|a s]; [discriminate|]. cbn [plus] in H.
    destruct (isdigit a) eqn:Ha; [|discriminate].
    rewrite after_runs_shift in H. pose proof H as E'.
    rewrite hd_error_map in E'.
    destruct (hd_error (after_runs s g)) as [o'|] eqn:Eo; [|discriminate].
    injection E' as E'. apply after_runs_head in Eo.
    destruct Eo as [d [side [Hd [Hs Hg]]]]. exists d, side.
    destruct o' as [[m' r'] g'']. injection E' as <- <- <-. auto. }
  destruct H1 as [d [side [Hd [Hs Hg]]]]. cbn [snd] in Hg. subst g'.
  apply hd_error_In in H. unfold tail_re in H. rewrite run_seq_plus in H.
  apply in_flat_map in H as [[m1 s1] [Hp H]]. cbn [fst snd] in H.
  apply in_map_iff in H as [[[m2 s2] g2] [[= <- <- Hg2] H]].
  change (mem Digit) with isdigit in Hp.
  apply plus_sound in Hp as [_ [Hm1 Hne]].
  apply capture_sound in H as [k [side' [-> [Hg _]]]].
  rewrite Hg in Hg2. injection Hg2 as -> ->.
  exists m1, d, side. auto 10.
Qed.

Lemma every_last (p : ascii -> bool) (m : string) :
  every p m = true -> m <> EmptyString ->
  exists m' e, m = (m' ++ String e EmptyString)%string /\ p e = true.
Proof.
  induction m as [|a m IH]; [congruence|]. cbn [every]. intros H _.
  apply andb_prop in H as [Ha Hm]. destruct m as [|b m].
  - exists EmptyString, a. auto.
  - destruct (IH Hm) as [m' [e [E He]]]; [discriminate|].
    exists (String a m'), e. cbn [append]. now rewrite <- E.
Qed.

(** A match of [strike_pattern]: the capture is the single digit in front of
    the option side, and the character in front of it is a digit of the
    greedy run. *)
Lemma match_strike_pattern (t m r : string) (g' : groups) :
  match_ strike_pattern t = Some (m, r, g') ->
  exists pre e d side,
    m = (pre ++ String e (String d side))%string /\
    t = (m ++ r)%string /\
    isdigit e = true /\ isdigit d = true /\ (side = "CE" \/ side = "PE") /\
    g' = [(2%nat, side); (1%nat, String d EmptyString)].
Proof.
  unfold match_. rewrite strike_pattern_parts. intros H.
  pose proof (run_sound _ _ _ _ _ _ (hd_error_In _ _ H)) as Ht.
  apply run_seq_hd_inv in H as [m1 [s1 [g1 [m2 [H1 [H ->]]]]]].
  cbn [run] in H1.
  destruct (strip_prefix "BANKNIFTY" t); [|now cbn [In] in H1].
  destruct H1 as [[= <- <- <-]|[]].
  apply run_seq_hd_inv in H as [m3 [s3 [g3 [m4 [H3 [H ->]]]]]].
  cbn [run] in H3. apply in_map_iff in H3 as [[m3' s3'] [[= <- <- <-] _]].
  apply run_seq_hd_inv in H as [m5 [s5 [g5 [m6 [H5 [H ->]]]]]].
  cbn [run snd] in H5. destruct s3' as [|c s']; [now cbn [In] in H5|].
  destruct (mem (OneOf "NF") c); [|now cbn [In] in H5].
  destruct H5 as [[= <- <- <-]|[]].
  apply tail_first in H as [m7 [d [side [-> [Hm7 [Hne [Hd [Hs ->]]]]]]]].
  destruct (every_last _ _ Hm7 Hne) as [m7' [e [-> He]]].
  exists ("BANKNIFTY" ++ m3' ++ String c EmptyString ++ m7')%string,
    e, d, side.
  assert (E : ("BANKNIFTY" ++ m3' ++ String c EmptyString
                 ++ (m7' ++ String e EmptyString) ++ String d side)%string =
              (("BANKNIFTY" ++ m3' ++ String c EmptyString ++ m7')
                 ++ String e (String d side))%string).
  { rewrite !append_assoc. reflexivity. }
  split; [exact E|]. split; [exact Ht|]. auto.
Qed.

(** *** [re.findall] *)

(** The first match [re.findall] reports is a match at some position of the
    text. *)
Lemma findall_go_head (r : regex) (k : nat) (s : string)
      (g : groups) (l : list groups) :
  findall_go r k s = g :: l ->
  exists pre t m rest,
    s = (pre ++ t)%string /\ match_ r t = Some (m, rest, g).
Proof.
  revert k; induction s as [|a s IH]; intros k; cbn [findall_go].
  - destruct k; [|discriminate].
    destruct (match_ r EmptyString) as [[[m rest] g0]|] eqn:E; [|discriminate].
    intros [= <- <-]. now exists EmptyString, EmptyString, m, rest.
  - destruct k as [|k].
    + destruct (match_ r (String a s)) as [[[m rest] g0]|] eqn:E.
      * intros [= <- <-]. now exists EmptyString, (String a s), m, rest.
      * intros H. destruct (IH _ H) as [pre [t [m [rest [-> Hm]]]]].
        now exists (String a pre), t, m, rest.
    + intros H. destruct (IH _ H) as [pre [t [m [rest [-> Hm]]]]].
      now exists (String a pre), t, m, rest.
Qed.

(** Nothing is reported when the pattern matches at no position. *)
Lemma findall_go_nil (r : regex) (k : nat) (s : string) :
  (forall pre t, s = (pre ++ t)%string -> match_ r t = None) ->
  findall_go r k s = [].
Proof.
  revert k; induction s as [|a s IH]; intros k H; cbn [findall_go].
  - rewrite (H EmptyString EmptyString eq_refl). now destruct k.
  - assert (Hs : forall pre t, s = (pre ++ t)%string -> match_ r t = None).
    { intros pre t ->. now apply (H (String a pre) t). }
    destruct k as [|k]; [|now apply IH].
    rewrite (H EmptyString (String a s) eq_refl). now apply IH.
Qed.

(** The first match reported is the leftmost: the pattern matches at no
    earlier position. *)
Lemma findall_head_leftmost (r : regex) (s : string)
      (g : groups) (l : list groups) :
  findall r s = g :: l ->
  exists pre t m rest,
    s = (pre ++ t)%string /\ match_ r t = Some (m, rest, g) /\
    forall pre' t',
      s = (pre' ++ t')%string ->
      (String.length pre' < String.length pre)%nat ->
      match_ r t' = None.
Proof.
  unfold findall. induction s as [|a s IH]; cbn [findall_go].
  - destruct (match_ r EmptyString) as [[[m rest] g0]|] eqn:E; [|discriminate].
    intros [= <- <-]. exists EmptyString, EmptyString, m, rest.
    repeat split; auto. cbn [String.length]. lia.
  - destruct (match_ r (String a s)) as [[[m rest] g0]|] eqn:E.
    + intros [= <- <-]. exists EmptyString, (String a s), m, rest.
      repeat split; auto. cbn [String.length]. lia.
    + intros H. destruct (IH H) as [pre [t [m [rest [-> [Hm Hleft]]]]]].
      exists (String a pre), t, m, rest. repeat split; auto.
      intros pre' t' Hs Hlen. destruct pre' as [|b pre'].
      * cbn [append] in Hs. now subst t'.
      * cbn [append] in Hs. injection Hs as <- Hs.
        apply (Hleft pre' t' Hs). cbn [String.length] in Hlen. lia.
Qed.

(** *** [extract_strike_data] *)

(** The function never raises: the index [strikes[0][0]] is guarded. *)
Lemma extract_strike_data_spec (message : string) :
  extract_strike_data message =
  Ok (if contains "ATM strikes:" message
      then match findall strike_pattern message with
           | g :: _ => Some (group 1 g)
           | [] => None
           end
      else None).
Proof.
  unfold extract_strike_data.
  destruct (contains "ATM strikes:" message); [|reflexivity].
  destruct (findall strike_pattern message); reflexivity.
Qed.

(** A strike that is returned is one digit of the message, with a digit in
    front of it and [CE] or [PE] behind it. *)
Lemma extract_strike_data_Some (message k : string) :
  extract_strike_data message = Ok (Some k) ->
  exists pre e d side post,
    k = String d EmptyString /\
    message = (pre ++ String e (String d side) ++ post)%string /\
    isdigit e = true /\ isdigit d = true /\ (side = "CE" \/ side = "PE").
Proof.
  rewrite extract_strike_data_spec.
  destruct (contains "ATM strikes:" message); [|discriminate].
  destruct (findall strike_pattern message) as [|g l] eqn:E; [discriminate|].
  intros [= <-]. apply findall_go_head in E as [pre [t [m [rest [-> Hm]]]]].
  apply match_strike_pattern in Hm
    as [pre' [e [d [side [-> [-> [He [Hd [Hs ->]]]]]]]]].
  exists (pre ++ pre')%string, e, d, side, rest. repeat split; auto.
  rewrite !append_assoc. reflexivity.
Qed.

End StrikeFacts.

(** ** Well-formed time stamps *)

Module StampFacts.
Import Str Spec StrFacts DigitFacts Re ReFacts.

(** *** [int] of a padded field *)

Lemma every_pad2 (n : Z) : every isdigit (pad2 n) = true.
Proof. unfold pad2. cbn [every]. now rewrite !isdigit_digit_char. Qed.

Lemma every_pad3 (n : Z) : every isdigit (pad3 n) = true.
Proof.
  unfold pad3. cbn [every]. now rewrite isdigit_digit_char, every_pad2.
Qed.

Lemma every_pad4 (n : Z) : every isdigit (pad4 n) = true.
Proof.
  unfold pad4. cbn [every]. now rewrite isdigit_digit_char, every_pad3.
Qed.

Ltac digit_range := Z.to_euclidean_division_equations; lia.

Lemma int_pad2 (n : Z) : 0 <= n <= 99 -> int (pad2 n) = Ok n.
Proof.
  intros H. rewrite int_digits by (apply every_pad2 || discriminate || reflexivity).
  f_equal. unfold decimal, pad2. cbn [decimal_from].
  rewrite !digit_val_digit_char by digit_range. digit_range.
Qed.

Lemma int_pad4 (n : Z) : 0 <= n <= 9999 -> int (pad4 n) = Ok n.
Proof.
  intros H. rewrite int_digits by (apply every_pad4 || discriminate || reflexivity).
  f_equal. unfold decimal, pad4, pad3, pad2. cbn [decimal_from].
  rewrite !digit_val_digit_char by digit_range. digit_range.
Qed.

(** The fraction: three digits padded with zeros to six. *)
Lemma int_pad3_000 (n : Z) :
  0 <= n <= 999 -> int (pad3 n ++ "000") = Ok (1000 * n).
Proof.
  intros H.
  assert (E : every isdigit (pad3 n ++ "000") = true).
  { unfold pad3, pad2. cbn [append every]. now rewrite !isdigit_digit_char. }
  rewrite int_digits by (exact E || discriminate || reflexivity).
  f_equal. unfold decimal, pad3, pad2. cbn [append decimal_from].
  rewrite !digit_val_digit_char by digit_range.
  change (digit_val "0") with (Some 0). digit_range.
Qed.

(** *** The groups of the format, on padded fields *)

(** A property of the numbers from [lo] to [hi], checked number by number. *)
Lemma by_cases (P : Z -> Prop) (lo : Z) (count : nat) :
  (forall k : nat, (k < count)%nat -> P (lo + Z.of_nat k)) ->
  forall n, lo <= n < lo + Z.of_nat count -> P n.
Proof.
  intros H n Hn. replace n with (lo + Z.of_nat (Z.to_nat (n - lo))) by lia.
  apply H. lia.
Qed.

Tactic Notation "enumerate" integer(count) :=
  let k := fresh "k" in
  let Hk := fresh "Hk" in
  intros k Hk;
  do count (destruct k as [|k]; [intros rest g; reflexivity|]);
  exfalso; lia.

Lemma re_m_field (n : Z) : 1 <= n <= 12 -> field_ok re_m gm n.
Proof.
  intros H. apply (by_cases (field_ok re_m gm) 1 12); [|lia]. enumerate 12.
Qed.

Lemma re_d_field (n : Z) : 1 <= n <= 31 -> field_ok re_d gd n.
Proof.
  intros H. apply (by_cases (field_ok re_d gd) 1 31); [|lia]. enumerate 31.
Qed.

Lemma re_H_field (n : Z) : 0 <= n <= 23 -> field_ok re_H gH n.
Proof.
  intros H. apply (by_cases (field_ok re_H gH) 0 24); [|lia]. enumerate 24.
Qed.

Lemma re_M_field (n : Z) : 0 <= n <= 59 -> field_ok re_M gM n.
Proof.
  intros H. apply (by_cases (field_ok re_M gM) 0 60); [|lia]. enumerate 60.
Qed.

Lemma re_S_field (n : Z) : 0 <= n <= 59 -> field_ok re_S gS n.
Proof.
  intros H. apply (by_cases (field_ok re_S gS) 0 60); [|lia]. enumerate 60.
Qed.

Lemma set_head (c : cset) (a : ascii) (s : string) (g : groups) :
  mem c a = true ->
  hd_error (run (Set_ c) (String a s) g) = Some (String a EmptyString, s, g).
Proof. intros H. cbn [run]. now rewrite H. Qed.

Lemma set_seq_head (c : cset) (r : regex) (a : ascii) (s : string)
      (g : groups) (m s2 : string) (g2 : groups) :
  mem c a = true ->
  hd_error (run r s g) = Some (m, s2, g2) ->
  hd_error (run (Seq (Set_ c) r) (String a s) g) = Some (String a m, s2, g2).
Proof.
  intros Ha H. apply (run_seq_head _ _ _ _ (String a EmptyString) s g m s2 g2);
    [now apply set_head | assumption].
Qed.

Lemma re_Y_field (n : Z) (rest : string) (g : groups) :
  hd_error (run re_Y (pad4 n ++ rest) g) = Some (pad4 n, rest, (gY, pad4 n) :: g).
Proof.
  unfold re_Y. apply run_group_head. unfold pad4, pad3, pad2. cbn [append].
  do 3 (apply set_seq_head; [apply isdigit_digit_char|]).
  apply set_head, isdigit_digit_char.
Qed.

(** The blank between the date and the time: [\s+] takes it and stops at the
    digit that follows. *)
Lemma space_field (n : Z) (rest : string) (g : groups) :
  hd_error (run (Plus Space) (" " ++ pad2 n ++ rest) g) =
  Some (" "%string, (pad2 n ++ rest)%string, g).
Proof.
  cbn [run]. rewrite hd_error_map, plus_head.
  unfold pad2. cbn [append starts_in take_while drop_while mem].
  change (isspace " ") with true. cbv iota.
  now rewrite (isdigit_not_space _ (isdigit_digit_char (n / 10))).
Qed.

(** [c{lo,hi}] on a text that is a run of [c], of a length in the range. *)
Lemma rep_whole (p : ascii -> bool) (lo hi : nat) (m : string) :
  every p m = true ->
  (lo <= String.length m <= hi)%nat ->
  hd_error (rep p lo hi m) = Some (m, EmptyString).
Proof.
  revert lo hi; induction m as [|a m IH]; intros lo hi Hm Hl;
    cbn [every String.length] in *.
  - assert (lo = 0%nat) by lia. subst lo. destruct hi; reflexivity.
  - apply andb_prop in Hm as [Ha Hm].
    destruct hi as [|hi]; [lia|]. cbn [rep]. rewrite Ha.
    rewrite hd_error_app, hd_error_map, (IH (Nat.pred lo) hi Hm); [reflexivity|lia].
Qed.

Lemma re_f_field (n : Z) (g : groups) :
  hd_error (run re_f (pad3 n) g) =
  Some (pad3 n, EmptyString, (gf, pad3 n) :: g).
Proof.
  unfold re_f. apply run_group_head. cbn [run].
  rewrite hd_error_map, rep_whole; [reflexivity| |cbn; lia].
  unfold pad3, pad2. cbn [every].
  now rewrite !(isdigit_in_range _ (isdigit_digit_char _)).
Qed.

(** *** [strptime] reads a formatted time stamp back *)

Lemma days_in_month_le (y m : Z) : days_in_month y m <= 31.
Proof.
  unfold days_in_month.
  destruct m as [|p|p]; try lia.
  do 4 (try destruct p as [p|p|]; try lia); destruct (is_leap y); lia.
Qed.

Lemma match_format (t : datetime) :
  valid_timestamp t ->
  match_ format_regex (format_timestamp t) =
  Some (format_timestamp t, EmptyString,
        [(gf, pad3 (microsecond t / 1000)); (gS, pad2 (second t));
         (gM, pad2 (minute t)); (gH, pad2 (hour t)); (gd, pad2 (day t));
         (gm, pad2 (month t)); (gY, pad4 (year t))]).
Proof.
  intros [Hd [Ht _]]. unfold check_date, check_time in *.
  pose proof (days_in_month_le (year t) (month t)) as Hdim.
  unfold match_, format_regex, format_timestamp.
  eapply run_seq_head; [apply re_Y_field|].
  eapply run_seq_head; [apply (run_lit_head "-")|].
  eapply run_seq_head; [apply re_m_field; lia|].
  eapply run_seq_head; [apply (run_lit_head "-")|].
  eapply run_seq_head; [apply re_d_field; lia|].
  eapply run_seq_head; [apply space_field|].
  eapply run_seq_head; [apply re_H_field; lia|].
  eapply run_seq_head; [apply (run_lit_head ":")|].
  eapply run_seq_head; [apply re_M_field; lia|].
  eapply run_seq_head; [apply (run_lit_head ":")|].
  eapply run_seq_head; [apply re_S_field; lia|].
  eapply run_seq_head; [apply (run_lit_head ",")|].
  apply re_f_field.
Qed.

Lemma strptime_format (t : datetime) :
  valid_timestamp t -> strptime (format_timestamp t) = Ok t.
Proof.
  intros H. unfold strptime. rewrite (match_format t H).
  destruct H as [Hd [Ht Hms]].
  pose proof (days_in_month_le (year t) (month t)) as Hdim.
  cbn [group Nat.eqb gY gm gd gH gM gS gf].
  pose proof Hd as Hd'. pose proof Ht as Ht'.
  unfold check_date, check_time in Hd', Ht'.
  rewrite int_pad4 by lia. cbn [bind].
  rewrite !int_pad2 by lia. cbn [bind].
  change (pad3 (microsecond t / 1000)
            ++ zeros (6 - String.length (pad3 (microsecond t / 1000))))%string
    with (pad3 (microsecond t / 1000) ++ "000")%string.
  rewrite int_pad3_000 by digit_range. cbn [bind].
  replace (1000 * (microsecond t / 1000)) with (microsecond t) by digit_range.
  unfold make. rewrite Hd, Ht. now destruct t.
Qed.

End StampFacts.

(** ** The line parser *)

Module ParseFacts.
Import Str Spec StrFacts DigitFacts StampFacts.

Lemma startswith_colon (a : ascii) (s : string) :
  startswith ": " (String a s) =
  Ascii.eqb ":" a && starts_in (Ascii.eqb " ") s.
Proof.
  unfold startswith. cbn [strip_prefix].
  destruct (Ascii.eqb ":" a); [|reflexivity].
  destruct s as [|b s]; [reflexivity|]. cbn [starts_in andb].
  now destruct (Ascii.eqb " " b).
Qed.

(** The first field of a line is what stands in front of the first [": "]. *)
Lemma split_first_field (t msg : string) :
  colon_free t = true ->
  split ": " (t ++ ": " ++ msg) = t :: split ": " msg.
Proof.
  induction t as [|a t IH]; intros H.
  - now apply (split_sep_app ": " msg).
  - change (String a t ++ ": " ++ msg)%string
      with (String a (t ++ ": " ++ msg)).
    rewrite split_cons.
    + rewrite IH; [reflexivity|].
      destruct t; [reflexivity|]. cbn [colon_free] in H.
      now apply andb_prop in H.
    + rewrite startswith_colon. destruct t as [|b t].
      * now destruct (Ascii.eqb ":" a).
      * cbn [colon_free] in H. apply andb_prop in H as [H _].
        cbn [append starts_in]. now destruct (Ascii.eqb ":" a && Ascii.eqb " " b).
Qed.

Lemma eqb_colon_digit (k : Z) : Ascii.eqb ":" (digit_char k) = false.
Proof. apply eqb_digit_other; [apply isdigit_digit_char | reflexivity]. Qed.

Lemma eqb_blank_digit (k : Z) : Ascii.eqb " " (digit_char k) = false.
Proof. apply eqb_digit_other; [apply isdigit_digit_char | reflexivity]. Qed.

Lemma colon_free_timestamp (t : datetime) : colon_free (format_timestamp t) = true.
Proof.
  unfold format_timestamp, pad4, pad3, pad2. cbn [append colon_free].
  rewrite !eqb_colon_digit, !eqb_blank_digit. reflexivity.
Qed.

(** A line with a delimiter after a text that holds none. *)
Lemma parse_log_line_fields (t msg : string) :
  colon_free t = true ->
  parse_log_line (t ++ ": " ++ msg) =
  match strptime t with
  | Ok timestamp => Some (timestamp, msg)
  | Raise _ => None
  end.
Proof.
  intros H. unfold parse_log_line. rewrite (split_first_field t msg H).
  cbn [item nth_error bind tl]. rewrite join_split by discriminate.
  now destruct (strptime t).
Qed.

(** A line without a delimiter is its own first field, with an empty
    message. *)
Lemma split_no_delimiter (line : string) :
  contains ": " line = false -> split ": " line = [line].
Proof.
  induction line as [|a s IH]; [reflexivity|]. cbn [contains]. intros H.
  apply orb_false_elim in H as [H1 H2].
  rewrite (split_cons _ _ _ H1), (IH H2). reflexivity.
Qed.

Lemma parse_log_line_no_delimiter (line : string) :
  contains ": " line = false ->
  parse_log_line line =
  match strptime line with
  | Ok timestamp => Some (timestamp, EmptyString)
  | Raise _ => None
  end.
Proof.
  intros H. unfold parse_log_line. rewrite (split_no_delimiter line H).
  cbn [item nth_error bind tl join String.concat]. now destruct (strptime line).
Qed.

(** A line with a delimiter has at least two fields. *)
Lemma split_contains (sep line : string) :
  sep <> EmptyString ->
  contains sep line = true ->
  exists f g rest, split sep line = f :: g :: rest.
Proof.
  intros Hsep. unfold split. induction line as [|a s IH]; cbn [contains split_go].
  - destruct sep; [congruence | discriminate].
  - destruct (startswith sep (String a s)) eqn:E; cbn [orb].
    + intros _.
      pose proof (split_go_nonempty sep (Nat.pred (String.length sep)) s) as Hne.
      destruct (split_go sep (Nat.pred (String.length sep)) s) as [|g rest];
        [congruence|]. now exists EmptyString, g, rest.
    + intros H. destruct (IH H) as [f [g [rest ->]]].
      now exists (String a f), g, rest.
Qed.

(** What is parsed is the first field, whatever the line. *)
Lemma parse_log_line_first_field (line : string) :
  parse_log_line line =
  match strptime (hd EmptyString (split ": " line)) with
  | Ok timestamp => Some (timestamp, join ": " (tl (split ": " line)))
  | Raise _ => None
  end.
Proof.
  unfold parse_log_line, split.
  pose proof (split_go_nonempty ": " 0 line) as Hne.
  destruct (split_go ": " 0 line) as [|f fs]; [congruence|].
  cbn [item nth_error bind hd tl]. now destruct (strptime f).
Qed.

End ParseFacts.

(** ** The series builder *)

Module BuilderFacts.
Import Str Spec StrFacts DigitFacts OIFacts StrikeFacts ParseFacts.

(** *** The loop body *)

Lemma process_line_rows (line : string) (data : list row) :
  process_line line data =
  if line_ok line then Ok (data ++ line_rows line) else Raise ValueError.
Proof.
  unfold process_line, line_rows, line_ok.
  destruct (parse_log_line line) as [[timestamp message]|];
    [|now rewrite app_nil_r].
  destruct (convertible message) eqn:C.
  - destruct (extract_oi_data_Ok _ C) as [oi E]. rewrite E.
    rewrite extract_strike_data_spec. cbn [bind value]. f_equal.
    set (k := if contains "ATM strikes:" message then _ else _).
    destruct oi as [[ce|] [pe|]]; destruct k as [k|]; cbn [oi_rows strike_rows];
      try destruct (truthy k); rewrite <- ?app_assoc, ?app_nil_r; reflexivity.
  - now rewrite (extract_oi_data_Raise _ C).
Qed.

Lemma process_lines_rows (lines : list string) (data : list row) :
  process_lines lines data =
  if forallb line_ok lines
  then Ok (data ++ flat_map line_rows lines)
  else Raise ValueError.
Proof.
  revert data; induction lines as [|line rest IH]; intros data;
    cbn [process_lines forallb flat_map].
  - now rewrite app_nil_r.
  - rewrite process_line_rows. destruct (line_ok line); [|reflexivity].
    cbn [bind andb]. rewrite IH. now rewrite app_assoc.
Qed.

(** What [process_log_data] does, for every text: it returns the rows of
    the lines, or raises [ValueError] when a line holds a reading too long
    to convert. *)
Lemma process_log_data_series (log_text : string) :
  process_log_data log_text =
  if forallb line_ok (split nl log_text)
  then Ok (series log_text)
  else Raise ValueError.
Proof. unfold process_log_data. now rewrite process_lines_rows. Qed.

Lemma process_log_data_Ok (log_text : string) (rows : list row) :
  process_log_data log_text = Ok rows ->
  forallb line_ok (split nl log_text) = true /\ rows = series log_text.
Proof.
  rewrite process_log_data_series.
  destruct (forallb line_ok (split nl log_text)); [|discriminate].
  now intros [= <-].
Qed.



(** *** The list [data] as an object *)

Lemma list_append_last (h : heap) (d : list row) (r : row) :
  list_append (length h) r (h ++ [d]) = (h ++ [d ++ [r]])%list.
Proof.
  induction h as [|d0 h IH]; [reflexivity|].
  cbn [length app list_append]. now rewrite IH.
Qed.

Lemma contents_last (h : heap) (d : list row) :
  contents (length h) (h ++ [d]) = d.
Proof. unfold contents. now rewrite app_nth2, Nat.sub_diag by lia. Qed.

Lemma contents_older (h : heap) (d : list row) (l : loc) :
  (l < length h)%nat -> contents l (h ++ [d]) = contents l h.
Proof. intros H. unfold contents. now rewrite app_nth1. Qed.

(** One pass of the loop body on the heap does to the object [data] what
    [process_line] does to the list, and leaves the other objects alone. *)
Lemma process_line_at_last (line : string) (h : heap) (d : list row) :
  process_line_at (length h) line (h ++ [d]) =
  match process_line line d with
  | Ok d' => (Ok tt, (h ++ [d'])%list)
  | Raise e => (Raise e, (h ++ [d])%list)
  end.
Proof.
  unfold process_line_at, process_line.
  destruct (parse_log_line line) as [[timestamp message]|]; [|reflexivity].
  destruct (extract_oi_data message) as [oi|e]; [|reflexivity].
  destruct (extract_strike_data message) as [strike|e]; [|reflexivity].
  cbn [bind].
  destruct oi as [[ce|] [pe|]]; destruct strike as [k|];
    try destruct (truthy k); rewrite ?list_append_last; reflexivity.
Qed.

Lemma for_lines_last (lines : list string) (h : heap) (d : list row) :
  exists d',
    for_lines (length h) lines (h ++ [d]) =
    (match process_lines lines d with
     | Ok _ => Ok tt
     | Raise e => Raise e
     end, (h ++ [d'])%list) /\
    (forall rows, process_lines lines d = Ok rows -> d' = rows).
Proof.
  revert d; induction lines as [|line rest IH]; intros d;
    cbn [for_lines process_lines].
  - exists d. split; [reflexivity|]. now intros rows [= <-].
  - rewrite process_line_at_last.
    destruct (process_line line d) as [d1|e]; cbn [bind].
    + apply IH.
    + exists d. split; [reflexivity|discriminate].
Qed.

(** On every heap, [process_log_data_at] returns what [process_log_data]
    returns, and it adds one object to the heap. *)
Lemma process_log_data_at_pure (log_text : string) (h : heap) :
  exists d,
    process_log_data_at log_text h = (process_log_data log_text, (h ++ [d])%list).
Proof.
  unfold process_log_data_at, process_log_data, new_list.
  destruct (for_lines_last (split nl log_text) h []) as (d & E & Hd).
  exists d. rewrite E.
  destruct (process_lines (split nl log_text) []) as [rows|e]; [|reflexivity].
  now rewrite contents_last, (Hd rows eq_refl).
Qed.

(** *** Lines *)

Lemma startswith_nl (a : ascii) (s : string) :
  startswith nl (String a s) = Ascii.eqb (ascii_of_nat 10) a.
Proof.
  unfold startswith, nl. cbn [strip_prefix].
  now destruct (Ascii.eqb (ascii_of_nat 10) a).
Qed.

(** The lines of two texts joined by a newline are the lines of the first
    followed by the lines of the second. *)
Lemma split_nl_app (a b : string) :
  split nl (a ++ nl ++ b) = split nl a ++ split nl b.
Proof.
  induction a as [|c a IH].
  - now apply (split_sep_app nl b).
  - change (String c a ++ nl ++ b)%string with (String c (a ++ nl ++ b)).
    unfold split in *. cbn [split_go]. rewrite !startswith_nl.
    destruct (Ascii.eqb (ascii_of_nat 10) c).
    + change (Nat.pred (String.length nl)) with 0%nat. rewrite IH. reflexivity.
    + rewrite IH. pose proof (split_go_nonempty nl 0 a) as Hne.
      destruct (split_go nl 0 a); [congruence | reflexivity].
Qed.

Lemma series_app (a b : string) :
  series (a ++ nl ++ b) = series a ++ series b.
Proof. unfold series. now rewrite split_nl_app, flat_map_app. Qed.


(** A text without a newline is one line. *)
Lemma split_nl_line (line : string) :
  contains nl line = false -> split nl line = [line].
Proof.
  induction line as [|a s IH]; [reflexivity|]. cbn [contains]. intros H.
  apply orb_false_elim in H as [H1 H2].
  rewrite (split_cons _ _ _ H1), (IH H2). reflexivity.
Qed.

End BuilderFacts.

(** ** What the line parser accepts *)

Module AcceptFacts.
Import Str Spec StrFacts DigitFacts Re ReFacts ParseFacts.

Lemma bind_Ok {A B : Type} (x : result A) (f : A -> result B) (b : B) :
  bind x f = Ok b -> exists a, x = Ok a /\ f a = Ok b.
Proof. destruct x as [a|e]; [|discriminate]. intros H. now exists a. Qed.

(** A time stamp [strptime] returns has passed the range checks of the
    constructors. *)
Lemma strptime_valid (s : string) (t : datetime) :
  strptime s = Ok t -> valid_datetime t.
Proof.
  unfold strptime.
  destruct (match_ format_regex s) as [[[m rest] g]|]; [|discriminate].
  destruct rest; [|discriminate]. intros H.
  repeat (apply bind_Ok in H as [? [_ H]]).
  unfold make in H.
  destruct (check_date x x0 x1 && check_time x2 x3 x4 x5) eqn:E; [|discriminate].
  injection H as <-. apply andb_prop in E as [Hd Ht]. now split.
Qed.

Lemma every_app (p : ascii -> bool) (s t : string) :
  every p (s ++ t) = every p s && every p t.
Proof.
  induction s as [|a s IH]; cbn [append every]; [reflexivity|].
  now rewrite IH, andb_assoc.
Qed.

Lemma every_impl (p q : ascii -> bool) (s : string) :
  (forall a, p a = true -> q a = true) ->
  every p s = true -> every q s = true.
Proof.
  intros Hpq. induction s as [|a s IH]; cbn [every]; [reflexivity|].
  intros H. apply andb_prop in H as [Ha Hs]. now rewrite (Hpq a Ha), IH.
Qed.

Lemma rep_sound (p : ascii -> bool) (lo hi : nat) (s m r : string) :
  In (m, r) (rep p lo hi s) -> every p m = true.
Proof.
  revert lo s m r; induction hi as [|hi IH]; intros lo s m r; cbn [rep].
  - destruct lo; [intros [[= <- <-]|[]]; reflexivity | intros []].
  - destruct s as [|a s].
    + destruct lo; [intros [[= <- <-]|[]]; reflexivity | intros []].
    + destruct (p a) eqn:Ha.
      * rewrite in_app_iff, in_map_iff.
        intros [[[m1 r1] [[= <- <-] H]]|H].
        -- cbn [every fst]. rewrite Ha. exact (IH _ _ _ _ H).
        -- destruct lo; [destruct H as [[= <- <-]|[]]; reflexivity | destruct H].
      * destruct lo; [intros [[= <- <-]|[]]; reflexivity | intros []].
Qed.

Lemma every_mem_string (l : string) :
  every (fun a => mem_string a l) l = true.
Proof.
  assert (H : forall k, (forall a, mem_string a k = true -> mem_string a l = true) ->
                        every (fun a => mem_string a l) k = true).
  { induction k as [|b k IH]; intros Hk; cbn [every]; [reflexivity|].
    rewrite (Hk b) by (cbn [mem_string]; now rewrite Ascii.eqb_refl).
    apply IH. intros a Ha. apply Hk. cbn [mem_string]. now rewrite Ha, orb_true_r. }
  now apply H.
Qed.

(** A matched text is made of characters the expression allows. *)
Lemma run_may (r : regex) (s : string) (g : groups)
      (m s' : string) (g' : groups) :
  In (m, s', g') (run r s g) -> every (may r) m = true.
Proof.
  revert s g m s' g';
    induction r as [c|l|r1 IH1 r2 IH2|r1 IH1 r2 IH2|c|c lo hi|i r IH];
    intros s g m s' g'; cbn [run may].
  - destruct s as [|a s]; [intros []|].
    destruct (mem c a) eqn:E; [|intros []].
    intros [[= <- <- <-]|[]]. cbn [every]. now rewrite E.
  - destruct (strip_prefix l s); [|intros []].
    intros [[= <- <- <-]|[]]. apply every_mem_string.
  - rewrite in_flat_map. intros [[[m1 s1] g1] [H1 H2]].
    apply in_map_iff in H2 as [[[m2 s2] g2] [[= <- <- <-] H2]].
    rewrite every_app. apply andb_true_intro. split.
    + apply (every_impl (may r1)); [intros a ->; reflexivity | eauto].
    + apply (every_impl (may r2)); [intros a ->; apply orb_true_r | eauto].
  - rewrite in_app_iff. intros [H|H].
    + apply (every_impl (may r1)); [intros a ->; reflexivity | eauto].
    + apply (every_impl (may r2)); [intros a ->; apply orb_true_r | eauto].
  - rewrite in_map_iff. intros [[m0 r0] [[= <- <- <-] H]].
    now apply plus_sound in H.
  - rewrite in_map_iff. intros [[m0 r0] [[= <- <- <-] H]].
    now apply rep_sound in H.
  - rewrite in_map_iff. intros [[[m0 s0] g0] [[= <- <- <-] H]]. eauto.
Qed.

Lemma may_format_regex (a : ascii) :
  may format_regex a = true -> stamp_char a = true.
Proof.
  destruct a as [[] [] [] [] [] [] [] []]; intros H;
    try discriminate; reflexivity.
Qed.

(** A text [strptime] accepts is made of the characters of a time stamp. *)
Lemma strptime_alphabet (s : string) (t : datetime) :
  strptime s = Ok t -> every stamp_char s = true.
Proof.
  unfold strptime.
  destruct (match_ format_regex s) as [[[m rest] g]|] eqn:E; [|discriminate].
  destruct rest; [|discriminate]. intros _.
  unfold match_ in E. apply hd_error_In in E.
  pose proof (run_sound _ _ _ _ _ _ E) as Hs.
  apply run_may in E. rewrite Hs.
  assert (Hm : (m ++ "")%string = m) by (clear; induction m; simpl; congruence).
  rewrite Hm. exact (every_impl _ _ _ may_format_regex E).
Qed.

(** The text [strptime] accepts starts with a digit, the first of the
    year. *)
Lemma strptime_starts_digit (s : string) (t : datetime) :
  strptime s = Ok t -> starts_in isdigit s = true.
Proof.
  unfold strptime.
  destruct (match_ format_regex s) as [[[m rest] g]|] eqn:E; [|discriminate].
  intros _. unfold match_ in E. apply hd_error_In in E.
  unfold format_regex in E. cbn [run] in E.
  apply in_flat_map in E as [[[m1 s1] g1] [E _]].
  unfold re_Y in E. cbn [run] in E.
  apply in_map_iff in E as [[[m0 s0] g0] [_ E]].
  apply in_flat_map in E as [[[m2 s2] g2] [E _]].
  destruct s as [|a s]; [destruct E|]. cbn [starts_in].
  cbn [mem] in E. now destruct (isdigit a).
Qed.

(** What [parse_log_line] returned, read back. *)
Lemma parse_log_line_Some (line : string) (t : datetime) (msg : string) :
  parse_log_line line = Some (t, msg) ->
  strptime (hd EmptyString (split ": " line)) = Ok t /\
  msg = join ": " (tl (split ": " line)).
Proof.
  rewrite parse_log_line_first_field.
  destruct (strptime _); [|discriminate]. now intros [= -> ->].
Qed.

(** The first field of a line starts as the line does. *)
Lemma first_field_start (p : ascii -> bool) (sep line : string) :
  starts_in p (hd EmptyString (split sep line)) = true ->
  starts_in p line = true.
Proof.
  destruct line as [|a s]; [discriminate|].
  unfold split. cbn [split_go].
  destruct (startswith sep (String a s)); [discriminate|].
  now destruct (split_go sep 0 s).
Qed.

End AcceptFacts.

(** ** The rows of a line *)

Module RowFacts.
Import Str Spec StrFacts DigitFacts OIFacts StrikeFacts ParseFacts
       BuilderFacts AcceptFacts.

Lemma valid_in_ranges (t : datetime) : valid_datetime t -> in_ranges t.
Proof.
  unfold valid_datetime, in_ranges, check_date, check_time.
  rewrite !andb_true_iff, !Z.leb_le. lia.
Qed.

(** The OI extractor raises, or returns both values or neither, and no
    negative one. *)
Lemma extract_oi_data_cases (message : string) :
  extract_oi_data message = Raise ValueError \/
  extract_oi_data message = Ok (None, None) \/
  exists ce_oi pe_oi,
    extract_oi_data message = Ok (Some ce_oi, Some pe_oi) /\
    0 <= ce_oi /\ 0 <= pe_oi.
Proof.
  rewrite extract_oi_data_spec.
  destruct (contains "ATM CE OI:" message); [|now right; left].
  destruct (oi_occurrences message) as [|v0 [|v1 l]];
    [now right; left|now right; left|].
  destruct (within_limit v0 && within_limit v1); [|now left].
  right. right. exists (decimal v0), (decimal v1).
  split; [reflexivity|]. split; apply decimal_nonneg.
Qed.

(** A strike the extractor returns is a text that counts as true. *)
Lemma extract_strike_data_truthy (message k : string) :
  extract_strike_data message = Ok (Some k) -> truthy k = true.
Proof.
  intros H. apply extract_strike_data_Some in H as (pre & e & d & side & post & -> & _).
  reflexivity.
Qed.

Lemma line_rows_parsed (line : string) (t : datetime) (msg : string) :
  parse_log_line line = Some (t, msg) ->
  line_rows line =
  oi_rows t (value (None, None) (extract_oi_data msg))
    ++ strike_rows t (value None (extract_strike_data msg)).
Proof. unfold line_rows. now intros ->. Qed.

Lemma line_rows_In_oi (line : string) (t : datetime) (ce_oi pe_oi d : Z) :
  In (OIRecord t ce_oi pe_oi d) (line_rows line) <->
  exists msg,
    parse_log_line line = Some (t, msg) /\
    extract_oi_data msg = Ok (Some ce_oi, Some pe_oi) /\ d = ce_oi - pe_oi.
Proof.
  split.
  - unfold line_rows.
    destruct (parse_log_line line) as [[t' msg]|]; [|intros []].
    rewrite in_app_iff. intros [H|H].
    + destruct (extract_oi_data_cases msg) as [E|[E|(ce & pe & E & _)]];
        rewrite E in H; cbn [value oi_rows In] in H; [destruct H|destruct H|].
      destruct H as [[= <- <- <- <-]|[]]. now exists msg.
    + destruct (value None (extract_strike_data msg)) as [k|]; [|destruct H].
      cbn [strike_rows] in H. destruct (truthy k); [|destruct H].
      destruct H as [[=]|[]].
  - intros (msg & Hp & Ho & ->). rewrite (line_rows_parsed _ _ _ Hp), Ho.
    cbn [value oi_rows]. rewrite in_app_iff. left. now left.
Qed.

Lemma line_rows_In_strike (line : string) (t : datetime) (k : string) :
  In (StrikeRecord t k) (line_rows line) <->
  exists msg,
    parse_log_line line = Some (t, msg) /\
    extract_strike_data msg = Ok (Some k).
Proof.
  split.
  - unfold line_rows.
    destruct (parse_log_line line) as [[t' msg]|]; [|intros []].
    rewrite in_app_iff. intros [H|H].
    + destruct (extract_oi_data_cases msg) as [E|[E|(ce & pe & E & _)]];
        rewrite E in H; cbn [value oi_rows In] in H; [destruct H|destruct H|].
      destruct H as [[=]|[]].
    + destruct (extract_strike_data msg) as [[k'|]|e] eqn:E;
        cbn [value strike_rows] in H; try destruct H.
      destruct (truthy k'); [|destruct H].
      destruct H as [[= <- <-]|[]]. now exists msg.
  - intros (msg & Hp & Hs). rewrite (line_rows_parsed _ _ _ Hp), Hs.
    cbn [value strike_rows]. rewrite (extract_strike_data_truthy _ _ Hs).
    rewrite in_app_iff. right. now left.
Qed.

(** A line adds at most one row of each kind. *)
Lemma line_rows_kinds (line : string) :
  (length (filter is_oi (line_rows line)) <= 1)%nat /\
  (length (filter is_strike (line_rows line)) <= 1)%nat.
Proof.
  unfold line_rows. destruct (parse_log_line line) as [[t msg]|]; [|cbn; lia].
  rewrite !filter_app, !length_app.
  destruct (value (None, None) (extract_oi_data msg)) as [[ce|] [pe|]];
    destruct (value None (extract_strike_data msg)) as [k|];
    cbn [oi_rows strike_rows]; try destruct (truthy k); cbn; lia.
Qed.

(** The rows of one kind: those of each line, line after line. *)
Lemma filter_line_rows (kind : row -> bool) (lines : list string) :
  filter kind (flat_map line_rows lines) =
  flat_map (fun line => filter kind (line_rows line)) lines.
Proof.
  induction lines as [|line lines IH]; [reflexivity|].
  cbn [flat_map]. now rewrite filter_app, IH.
Qed.

Lemma length_flat_map_le {A B : Type} (f : A -> list B) (l : list A) (n : nat) :
  (forall x, length (f x) <= n)%nat ->
  (length (flat_map f l) <= n * length l)%nat.
Proof.
  intros Hf. induction l as [|x l IH]; cbn [flat_map length]; [lia|].
  rewrite length_app. specialize (Hf x). nia.
Qed.

(** [split] and [join] on lines without newline. *)
Lemma split_nl_join (lines : list string) :
  lines <> [] -> Forall one_line lines -> split nl (join nl lines) = lines.
Proof.
  induction lines as [|l ls IH]; [congruence|]. intros _ H.
  apply Forall_cons_iff in H as [Hl Hls].
  destruct ls as [|l2 ls].
  - now apply split_nl_line.
  - change (join nl (l :: l2 :: ls)) with (l ++ nl ++ join nl (l2 :: ls))%string.
    rewrite split_nl_app, (split_nl_line l Hl), IH; [reflexivity|congruence|assumption].
Qed.

Lemma series_join (lines : list string) :
  Forall one_line lines -> series (join nl lines) = flat_map line_rows lines.
Proof.
  intros H. destruct lines as [|l ls]; [reflexivity|].
  unfold series. now rewrite split_nl_join.
Qed.

Lemma flat_map_adds_rows (lines : list string) :
  flat_map line_rows (filter adds_rows lines) = flat_map line_rows lines.
Proof.
  induction lines as [|l ls IH]; [reflexivity|].
  cbn [filter flat_map]. unfold adds_rows at 1.
  destruct (line_rows l) eqn:E.
  - exact IH.
  - cbn [flat_map]. now rewrite E, IH.
Qed.

Lemma Forall_filter {A : Type} (P : A -> Prop) (p : A -> bool) (l : list A) :
  Forall P l -> Forall P (filter p l).
Proof.
  intros H. apply Forall_forall. intros x Hx.
  apply filter_In in Hx as [Hx _]. revert x Hx. now apply Forall_forall.
Qed.

End RowFacts.

(** ** Messages as the program that writes the log words them *)

Module MessageFacts.
Import Str Spec StrFacts DigitFacts Re ReFacts OIFacts StrikeFacts StampFacts
       AcceptFacts.

(** *** Characters a text does not hold *)

Lemma other_than_neq (c a : ascii) : other_than c a = true <-> a <> c.
Proof.
  unfold other_than. rewrite negb_true_iff. split.
  - intros H ->. now rewrite Ascii.eqb_refl in H.
  - intros H. destruct (Ascii.eqb a c) eqn:E; [|reflexivity].
    now apply Ascii.eqb_eq in E.
Qed.

Lemma every_other_than_mem (c : ascii) (sub : string) :
  mem_string c sub = true -> every (other_than c) sub = false.
Proof.
  induction sub as [|b l IH]; cbn [mem_string every]; [discriminate|].
  intros H. apply orb_prop in H as [H|H].
  - apply Ascii.eqb_eq in H as ->. unfold other_than.
    now rewrite Ascii.eqb_refl.
  - rewrite (IH H). apply andb_false_r.
Qed.

(** A text that lacks a character of [sub] does not contain [sub]. *)
Lemma contains_missing_char (c : ascii) (sub s : string) :
  mem_string c sub = true ->
  every (other_than c) s = true ->
  contains sub s = false.
Proof.
  intros Hc.
  assert (Hs : forall t, every (other_than c) t = true -> startswith sub t = false).
  { intros t Ht. unfold startswith.
    destruct (strip_prefix sub t) as [u|] eqn:E; [|reflexivity].
    apply strip_prefix_Some in E as ->.
    rewrite every_app, (every_other_than_mem _ _ Hc) in Ht. discriminate. }
  induction s as [|a s IH]; intros H; cbn [contains].
  - now rewrite (Hs _ H).
  - rewrite (Hs _ H). cbn [every] in H. apply andb_prop in H as [_ H]. now apply IH.
Qed.

Lemma contains_app (sub pre t : string) :
  contains sub (pre ++ sub ++ t) = true.
Proof.
  induction pre as [|a pre IH].
  - cbn [append]. destruct (sub ++ t)%string eqn:E; cbn [contains];
      rewrite <- E, startswith_app; reflexivity.
  - cbn [append contains]. rewrite IH. apply orb_true_r.
Qed.

Lemma every_digits_other_than (c : ascii) (s : string) :
  isdigit c = false -> every isdigit s = true -> every (other_than c) s = true.
Proof.
  intros Hc. apply every_impl. intros a Ha. apply other_than_neq.
  intros ->. congruence.
Qed.

Lemma starts_in_app (p : ascii -> bool) (m r : string) :
  starts_in p (m ++ r) =
  match m with EmptyString => starts_in p r | String a _ => p a end.
Proof. now destruct m. Qed.

Lemma starts_in_every (p : ascii -> bool) (m r : string) :
  every p m = true -> m <> EmptyString -> starts_in p (m ++ r) = true.
Proof.
  destruct m as [|a m]; [congruence|]. cbn [every append starts_in].
  intros H _. now apply andb_prop in H as [H _].
Qed.

(** *** The OI extractor *)

Lemma oi_occurrences_skip (pre r : string) :
  every (other_than "O") pre = true ->
  oi_occurrences (pre ++ r) = oi_occurrences r.
Proof.
  induction pre as [|a pre IH]; [reflexivity|].
  cbn [every]. intros H. apply andb_prop in H as [Ha H].
  apply other_than_neq in Ha.
  cbn [append oi_occurrences]. now rewrite (oi_at_not_O a _ Ha), IH.
Qed.

Lemma oi_occurrences_at (w r : string) :
  every isdigit w = true -> w <> EmptyString ->
  starts_in isdigit r = false ->
  oi_occurrences ("OI:" ++ w ++ r) = w :: oi_occurrences r.
Proof.
  intros Hw Hn Hr.
  change ("OI:" ++ w ++ r)%string with (String "O" ("I:" ++ w ++ r)).
  cbn [oi_occurrences].
  change (String "O" ("I:" ++ w ++ r)) with ("OI:" ++ (w ++ r))%string.
  unfold oi_at. rewrite strip_prefix_app, (starts_in_every _ _ _ Hw Hn).
  destruct (take_while_app isdigit w r Hw Hr) as [-> _].
  f_equal.
  change ("I:" ++ w ++ r)%string with ("I:" ++ (w ++ r))%string.
  rewrite (oi_occurrences_skip "I:") by reflexivity.
  apply oi_occurrences_skip. now apply every_digits_other_than.
Qed.

(** A message with the marker, wherever it stands, and two readings. *)
Lemma extract_oi_data_readings (pre u mid v rest : string) :
  contains "ATM CE OI:" (pre ++ "OI:" ++ u ++ mid ++ "OI:" ++ v ++ rest) = true ->
  every (other_than "O") pre = true ->
  every isdigit u = true -> u <> EmptyString ->
  every (other_than "O") mid = true -> starts_in isdigit mid = false ->
  every isdigit v = true -> v <> EmptyString ->
  starts_in isdigit rest = false ->
  extract_oi_data (pre ++ "OI:" ++ u ++ mid ++ "OI:" ++ v ++ rest) =
    if within_limit u && within_limit v
    then Ok (Some (decimal u), Some (decimal v))
    else Raise ValueError.
Proof.
  intros Hm Hpre Hu Hun Hmid Hmd Hv Hvn Hrest.
  rewrite extract_oi_data_spec, Hm.
  rewrite (oi_occurrences_skip pre) by exact Hpre.
  rewrite (oi_occurrences_at u) by
      (try assumption; rewrite starts_in_app; now destruct mid).
  rewrite (oi_occurrences_skip mid) by exact Hmid.
  now rewrite (oi_occurrences_at v) by assumption.
Qed.

(** A message with the marker and two readings: the first is the call's
    open interest, the second the put's. *)
Lemma extract_oi_data_message (pre u mid v rest : string) :
  every (other_than "O") pre = true ->
  every isdigit u = true -> u <> EmptyString ->
  every (other_than "O") mid = true -> starts_in isdigit mid = false ->
  every isdigit v = true -> v <> EmptyString ->
  starts_in isdigit rest = false ->
  extract_oi_data (pre ++ "ATM CE OI:" ++ u ++ mid ++ "OI:" ++ v ++ rest) =
    if within_limit u && within_limit v
    then Ok (Some (decimal u), Some (decimal v))
    else Raise ValueError.
Proof.
  intros Hpre Hu Hun Hmid Hmd Hv Hvn Hrest.
  rewrite extract_oi_data_spec, contains_app.
  rewrite (oi_occurrences_skip pre) by exact Hpre.
  change ("ATM CE OI:" ++ u ++ mid ++ "OI:" ++ v ++ rest)%string
    with ("ATM CE " ++ ("OI:" ++ u ++ (mid ++ "OI:" ++ v ++ rest)))%string.
  rewrite (oi_occurrences_skip "ATM CE ") by reflexivity.
  rewrite (oi_occurrences_at u) by
      (try assumption; rewrite starts_in_app; now destruct mid).
  rewrite (oi_occurrences_skip mid) by exact Hmid.
  now rewrite (oi_occurrences_at v) by assumption.
Qed.

(** *** The strike extractor *)

Lemma star_complete (p : ascii -> bool) (m r : string) :
  every p m = true -> In (m, r) (star p (m ++ r)).
Proof.
  induction m as [|a m IH]; [intros _; apply star_empty|].
  cbn [every append star]. intros H. apply andb_prop in H as [Ha H].
  rewrite Ha. apply in_or_app. left.
  apply in_map_iff. exists (m, r). split; [reflexivity|]. now apply IH.
Qed.

Lemma last_char_eq (a b : string) (x y : ascii) :
  (a ++ String x EmptyString)%string = (b ++ String y EmptyString)%string ->
  x = y.
Proof.
  revert b; induction a as [|c a IH]; intros [|e b]; cbn [append].
  - now intros [= ->].
  - intros [= _ H]. now destruct b.
  - intros [= _ H]. now destruct a.
  - intros [= _ H]. now apply (IH b).
Qed.

Lemma side_starts (side r : string) :
  side = "CE"%string \/ side = "PE"%string ->
  starts_in isdigit (side ++ r) = false.
Proof. now intros [-> | ->]. Qed.

(** After the letter of the code: the greedy run takes the digits [d2] and
    leaves the last digit [d] to the group. *)
Lemma tail_code (d2 : string) (d : ascii) (side rest : string) (g : groups) :
  every isdigit d2 = true -> d2 <> EmptyString -> isdigit d = true ->
  side = "CE"%string \/ side = "PE"%string ->
  exists m r side',
    hd_error (run tail_re (d2 ++ String d (side ++ rest)) g) =
      Some (m, r, (2%nat, side') :: (1%nat, String d EmptyString) :: g).
Proof.
  intros Hd2 Hn Hd Hside.
  assert (Hne : run tail_re (d2 ++ String d (side ++ rest)) g <> []).
  { destruct (run capture_re (String d (side ++ rest)) g) as [|o l] eqn:E.
    - exfalso. revert E. apply (capture_complete _ g g); [exact Hd|].
      cbn [drop_while]. rewrite Hd.
      assert (Hs : drop_while isdigit (side ++ rest) = (side ++ rest)%string)
        by now destruct Hside as [-> | ->].
      rewrite Hs. now apply side_complete.
    - unfold tail_re. rewrite run_seq_plus. intros Hnil.
      assert (Hin : In (glue d2 o)
                (flat_map (fun ms => map (glue (fst ms)) (run capture_re (snd ms) g))
                          (plus (mem Digit) (d2 ++ String d (side ++ rest))))).
      { apply in_flat_map. exists (d2, String d (side ++ rest)). split.
        - apply plus_star. split; [|exact Hn]. now apply star_complete.
        - cbn [fst snd]. rewrite E. now left. }
      rewrite Hnil in Hin. destruct Hin. }
  destruct (hd_error (run tail_re (d2 ++ String d (side ++ rest)) g))
    as [[[m r] g']|] eqn:E; [|now apply hd_error_None in E].
  pose proof (run_sound _ _ _ _ _ _ (hd_error_In _ _ E)) as Hs.
  destruct (tail_first _ _ _ _ _ E)
    as (m1 & d' & side' & -> & Hm1 & _ & Hd' & Hside' & ->).
  exists (m1 ++ String d' side')%string, r, side'.
  assert (Hx : d' = d).
  { assert (H1 : take_while isdigit (d2 ++ String d (side ++ rest)) =
                 (d2 ++ String d EmptyString)%string).
    { change (String d (side ++ rest)) with (String d EmptyString ++ (side ++ rest))%string.
      rewrite <- append_assoc.
      apply take_while_app; [|now apply side_starts].
      rewrite every_app, Hd2. cbn [every]. now rewrite Hd. }
    assert (H2 : take_while isdigit ((m1 ++ String d' side') ++ r) =
                 (m1 ++ String d' EmptyString)%string).
    { change (String d' side') with (String d' EmptyString ++ side')%string.
      rewrite <- (append_assoc m1), append_assoc.
      apply take_while_app; [|now apply side_starts].
      rewrite every_app, Hm1. cbn [every]. now rewrite Hd'. }
    rewrite Hs, H2 in H1. now apply last_char_eq in H1. }
  now rewrite Hx.
Qed.

Lemma code_app (d1 : string) (c : ascii) (d2 : string) (d : ascii)
      (side rest : string) :
  (instrument_code d1 c d2 d side ++ rest)%string =
  ("BANKNIFTY" ++ (d1 ++ String c (d2 ++ String d (side ++ rest))))%string.
Proof.
  unfold instrument_code.
  rewrite (append_assoc "BANKNIFTY"), (append_assoc d1). cbn [append].
  now rewrite (append_assoc d2).
Qed.

(** The pattern on an instrument code: the group is its last digit. *)
Lemma match_code (d1 : string) (c : ascii) (d2 : string) (d : ascii)
      (side rest : string) :
  every isdigit d1 = true -> d1 <> EmptyString ->
  c = "N"%char \/ c = "F"%char ->
  every isdigit d2 = true -> d2 <> EmptyString -> isdigit d = true ->
  side = "CE"%string \/ side = "PE"%string ->
  exists m r side',
    match_ strike_pattern (instrument_code d1 c d2 d side ++ rest) =
    Some (m, r, [(2%nat, side'); (1%nat, String d EmptyString)]).
Proof.
  intros Hd1 Hn1 Hc Hd2 Hn2 Hd Hside.
  destruct (tail_code d2 d side rest [] Hd2 Hn2 Hd Hside) as (m & r & side' & Ht).
  exists ("BANKNIFTY" ++ (d1 ++ String c m))%string, r, side'.
  rewrite code_app, strike_pattern_parts. unfold match_.
  eapply run_seq_head; [apply run_lit_head|].
  eapply run_seq_head.
  - cbn [run]. rewrite hd_error_map, plus_head.
    rewrite (starts_in_every _ _ _ Hd1 Hn1). cbn [option_map fst snd].
    assert (Hcd : starts_in (mem Digit) (String c (d2 ++ String d (side ++ rest))) = false)
      by now destruct Hc as [-> | ->].
    destruct (take_while_app (mem Digit) d1 _ Hd1 Hcd) as [-> ->]. reflexivity.
  - apply set_seq_head; [now destruct Hc as [-> | ->]|exact Ht].
Qed.

Lemma match_not_B (a : ascii) (s : string) :
  a <> "B"%char -> match_ strike_pattern (String a s) = None.
Proof.
  intros Ha. unfold match_, strike_pattern. cbn [run strip_prefix].
  destruct (Ascii.eqb "B" a) eqn:E; [|reflexivity].
  apply Ascii.eqb_eq in E. congruence.
Qed.

Lemma findall_go_skip (pre t : string) :
  every (other_than "B") pre = true ->
  findall_go strike_pattern 0 (pre ++ t) = findall_go strike_pattern 0 t.
Proof.
  induction pre as [|a pre IH]; [reflexivity|].
  cbn [every]. intros H. apply andb_prop in H as [Ha H].
  apply other_than_neq in Ha.
  cbn [append findall_go]. now rewrite (match_not_B a _ Ha), IH.
Qed.

(** A message with the marker whose first [B] opens an instrument code. *)
Lemma extract_strike_data_code (pre d1 : string) (c : ascii) (d2 : string)
      (d : ascii) (side rest : string) :
  contains "ATM strikes:" (pre ++ instrument_code d1 c d2 d side ++ rest) = true ->
  every (other_than "B") pre = true ->
  every isdigit d1 = true -> d1 <> EmptyString ->
  c = "N"%char \/ c = "F"%char ->
  every isdigit d2 = true -> d2 <> EmptyString -> isdigit d = true ->
  side = "CE"%string \/ side = "PE"%string ->
  extract_strike_data (pre ++ instrument_code d1 c d2 d side ++ rest) =
    Ok (Some (String d EmptyString)).
Proof.
  intros Hm Hpre Hd1 Hn1 Hc Hd2 Hn2 Hd Hside.
  rewrite extract_strike_data_spec, Hm. unfold findall.
  rewrite (findall_go_skip pre) by exact Hpre.
  destruct (match_code d1 c d2 d side rest Hd1 Hn1 Hc Hd2 Hn2 Hd Hside)
    as (m & r & side' & E).
  rewrite code_app in *.
  change ("BANKNIFTY" ++ (d1 ++ String c (d2 ++ String d (side ++ rest))))%string
    with (String "B" ("ANKNIFTY" ++ (d1 ++ String c (d2 ++ String d (side ++ rest)))))
    in *.
  cbn [findall_go]. rewrite E. reflexivity.
Qed.

(** *** Codes the pattern does not match *)

Lemma flat_map_nil {A B : Type} (f : A -> list B) (l : list A) :
  (forall x, In x l -> f x = []) -> flat_map f l = [].
Proof.
  induction l as [|x l IH]; intros H; [reflexivity|].
  cbn [flat_map]. rewrite (H x) by now left.
  apply IH. intros y Hy. apply H. now right.
Qed.

Lemma tail_nil (t : string) (g : groups) :
  starts_in isdigit t = false -> run tail_re t g = [].
Proof.
  intros H. unfold tail_re. rewrite run_seq_plus.
  now rewrite (plus_nil (mem Digit) t H).
Qed.

(** After the digits of the year: a character that is no digit, and either
    not one of [N] and [F] or with no digit behind it. *)
Lemma letter_nil (a : ascii) (tail : string) (g : groups) :
  (a <> "N"%char /\ a <> "F"%char) \/ starts_in isdigit tail = false ->
  run (Seq (Set_ (OneOf "NF")) tail_re) (String a tail) g = [].
Proof.
  intros H. cbn [run]. destruct (mem (OneOf "NF") a) eqn:E; [|reflexivity].
  cbn [flat_map]. fold (run tail_re tail g).
  destruct H as [[HN HF]|H].
  - cbn [mem mem_string] in E. rewrite orb_false_r in E.
    apply orb_prop in E as [E|E]; apply Ascii.eqb_eq in E; congruence.
  - now rewrite (tail_nil tail g H).
Qed.

Lemma code_nil (d1 : string) (a : ascii) (tail : string) (g : groups) :
  every isdigit d1 = true -> isdigit a = false ->
  (a <> "N"%char /\ a <> "F"%char) \/ starts_in isdigit tail = false ->
  run (Seq (Plus Digit) (Seq (Set_ (OneOf "NF")) tail_re))
      (d1 ++ String a tail) g = [].
Proof.
  intros Hd1 Ha H. rewrite run_seq_plus. apply flat_map_nil.
  intros [m r] Hin. cbn [fst snd].
  apply plus_sound in Hin as (Hs & Hm & _).
  destruct (starts_in isdigit r) eqn:Hr.
  - destruct r as [|b r]; [discriminate|]. cbn [starts_in] in Hr.
    cbn [run]. assert (E : mem (OneOf "NF") b = false).
    { cbn [mem mem_string]. rewrite orb_false_r.
      apply orb_false_intro;
        (destruct (Ascii.eqb b _) eqn:E; [|reflexivity]);
        apply Ascii.eqb_eq in E; subst b; discriminate. }
    now rewrite E.
  - assert (Ha' : starts_in isdigit (String a tail) = false) by exact Ha.
    destruct (take_while_app isdigit d1 _ Hd1 Ha') as [_ H1].
    destruct (take_while_app isdigit m r Hm Hr) as [_ H2].
    rewrite Hs, H2 in H1. subst r. rewrite (letter_nil a tail g H). reflexivity.
Qed.

Lemma match_no_prefix (t : string) :
  startswith "BANKNIFTY" t = false -> match_ strike_pattern t = None.
Proof.
  unfold startswith, match_, strike_pattern. cbn [run].
  now destruct (strip_prefix "BANKNIFTY" t).
Qed.

Lemma contains_suffix (sub pre t : string) :
  contains sub (pre ++ t) = false -> startswith sub t = false.
Proof.
  induction pre as [|a pre IH]; cbn [append].
  - destruct t; cbn [contains]; intros H; now apply orb_false_elim in H as [H _].
  - cbn [contains]. intros H. apply orb_false_elim in H as [_ H]. now apply IH.
Qed.

Lemma run_lit_nil (l : string) (r : regex) (s : string) (g : groups) :
  run r s g = [] -> run (Seq (Lit l) r) (l ++ s) g = [].
Proof.
  intros H. cbn [run]. rewrite strip_prefix_app. cbn [flat_map].
  now rewrite H.
Qed.

Lemma match_code_nil (d1 : string) (a : ascii) (tail : string) :
  every isdigit d1 = true -> isdigit a = false ->
  (a <> "N"%char /\ a <> "F"%char) \/ starts_in isdigit tail = false ->
  match_ strike_pattern ("BANKNIFTY" ++ d1 ++ String a tail) = None.
Proof.
  intros Hd1 Ha H. rewrite strike_pattern_parts. unfold match_.
  now rewrite run_lit_nil by now apply code_nil.
Qed.

(** A message whose only [BANKNIFTY] is followed by digits and then by a
    letter the pattern does not take. *)
Lemma extract_strike_data_no_code (pre d1 : string) (a : ascii) (tail : string) :
  every (other_than "B") pre = true ->
  every isdigit d1 = true -> isdigit a = false ->
  (a <> "N"%char /\ a <> "F"%char) \/ starts_in isdigit tail = false ->
  contains "BANKNIFTY" (String a tail) = false ->
  extract_strike_data (pre ++ "BANKNIFTY" ++ d1 ++ String a tail) = Ok None.
Proof.
  intros Hpre Hd1 Ha H Hc. rewrite extract_strike_data_spec.
  destruct (contains "ATM strikes:" _); [|reflexivity].
  unfold findall. rewrite (findall_go_skip pre) by exact Hpre.
  change ("BANKNIFTY" ++ d1 ++ String a tail)%string
    with (String "B" ("ANKNIFTY" ++ (d1 ++ String a tail))).
  cbn [findall_go].
  change (String "B" ("ANKNIFTY" ++ (d1 ++ String a tail)))
    with ("BANKNIFTY" ++ d1 ++ String a tail)%string.
  rewrite (match_code_nil d1 a tail Hd1 Ha H).
  rewrite (findall_go_skip "ANKNIFTY") by reflexivity.
  rewrite (findall_go_skip d1) by now apply every_digits_other_than.
  rewrite findall_go_nil; [reflexivity|].
  intros p t E. apply match_no_prefix. apply (contains_suffix _ p).
  now rewrite <- E.
Qed.

End MessageFacts.

(** ** Whole lines, from the text to the rows *)

Module LineFacts.
Import Str Spec StrFacts DigitFacts Re OIFacts StrikeFacts StampFacts ParseFacts
       BuilderFacts AcceptFacts RowFacts MessageFacts.

Lemma append_empty (s : string) : (s ++ "")%string = s.
Proof. induction s as [|a s IH]; cbn [append]; congruence. Qed.

(** The characters of a formatted time stamp and of an instrument code. *)
Lemma every_format_timestamp (p : ascii -> bool) (t : datetime) :
  (forall a, isdigit a = true -> p a = true) ->
  every p "- :," = true ->
  every p (format_timestamp t) = true.
Proof.
  intros Hd Hp. cbn [every] in Hp.
  repeat (apply andb_prop in Hp as [? Hp]).
  unfold format_timestamp.
  repeat (rewrite every_app; apply andb_true_intro; split);
    try (apply (every_impl isdigit);
         [exact Hd|first [apply every_pad2|apply every_pad3|apply every_pad4]]);
    cbn [every]; rewrite ?andb_true_r; assumption.
Qed.

Lemma every_instrument_code (p : ascii -> bool) (d1 : string) (c : ascii)
      (d2 : string) (d : ascii) (side : string) :
  (forall a, isdigit a = true -> p a = true) ->
  every p "BANKNIFTYCEP" = true ->
  every isdigit d1 = true -> c = "N"%char \/ c = "F"%char ->
  every isdigit d2 = true -> isdigit d = true ->
  side = "CE"%string \/ side = "PE"%string ->
  every p (instrument_code d1 c d2 d side) = true.
Proof.
  intros Hp Hl Hd1 Hc Hd2 Hd Hside. unfold instrument_code.
  assert (Hs : every p side = true).
  { cbn [every] in Hl. repeat (apply andb_prop in Hl as [? Hl]).
    destruct Hside as [-> | ->]; cbn [every]; rewrite ?andb_true_r;
      apply andb_true_intro; split; assumption. }
  assert (Hpc : p c = true).
  { cbn [every] in Hl. repeat (apply andb_prop in Hl as [? Hl]).
    now destruct Hc as [-> | ->]. }
  rewrite !every_app. cbn [every]. rewrite every_app. cbn [every].
  rewrite (every_impl _ _ _ Hp Hd1), (every_impl _ _ _ Hp Hd2), (Hp _ Hd), Hpc, Hs.
  cbn [every] in Hl. repeat (apply andb_prop in Hl as [? Hl]).
  repeat (apply andb_true_intro; split); auto.
Qed.

Lemma digits_other_than (c a : ascii) :
  isdigit c = false -> isdigit a = true -> other_than c a = true.
Proof. intros Hc Ha. apply other_than_neq. intros ->. congruence. Qed.

Lemma one_line_every (line : string) :
  every (other_than (ascii_of_nat 10)) line = true -> one_line line.
Proof. now apply contains_missing_char. Qed.

Lemma series_one_line (line : string) :
  one_line line -> series line = line_rows line.
Proof.
  intros H. unfold series. rewrite (split_nl_line _ H).
  cbn [flat_map]. apply app_nil_r.
Qed.

(** A line that starts with a formatted time stamp: its rows are those of
    the extractors on the message. *)
Lemma line_rows_formatted (t : datetime) (msg : string) :
  valid_timestamp t ->
  line_rows (format_timestamp t ++ ": " ++ msg) =
  oi_rows t (value (None, None) (extract_oi_data msg))
    ++ strike_rows t (value None (extract_strike_data msg)).
Proof.
  intros Ht. apply line_rows_parsed.
  rewrite parse_log_line_fields by apply colon_free_timestamp.
  now rewrite strptime_format.
Qed.

Lemma one_line_formatted (t : datetime) (msg : string) :
  every (other_than (ascii_of_nat 10)) msg = true ->
  one_line (format_timestamp t ++ ": " ++ msg).
Proof.
  intros Hm. apply one_line_every. rewrite every_app.
  rewrite every_format_timestamp;
    [|intros a Ha; now apply digits_other_than|reflexivity].
  change (": " ++ msg)%string with (String ":" (String " " msg)).
  cbn [every]. now rewrite Hm.
Qed.

(** The characters of the two messages. *)
Lemma every_oi_message (c : ascii) (u v : string) :
  isdigit c = false ->
  every (other_than c) "ATM CE OI: PE OI:" = true ->
  every isdigit u = true -> every isdigit v = true ->
  every (other_than c) ("ATM CE OI:" ++ u ++ " PE OI:" ++ v) = true.
Proof.
  intros Hc Hl Hu Hv. cbn [every] in Hl.
  repeat (apply andb_prop in Hl as [? Hl]).
  rewrite !every_app, (every_digits_other_than c u Hc Hu),
    (every_digits_other_than c v Hc Hv).
  cbn [every]. repeat (apply andb_true_intro; split); auto.
Qed.

Lemma every_strike_message (c' : ascii) (d1 : string) (c : ascii)
      (d2 : string) (d : ascii) (side : string) :
  isdigit c' = false ->
  every (other_than c') "ATM strikes: BANKNIFTYCEP" = true ->
  every isdigit d1 = true -> c = "N"%char \/ c = "F"%char ->
  every isdigit d2 = true -> isdigit d = true ->
  side = "CE"%string \/ side = "PE"%string ->
  every (other_than c') ("ATM strikes: " ++ instrument_code d1 c d2 d side) = true.
Proof.
  intros Hc' Hl Hd1 Hc Hd2 Hd Hside.
  rewrite every_app. apply andb_true_intro. split.
  - cbn [every] in Hl. repeat (apply andb_prop in Hl as [? Hl]).
    cbn [every]. repeat (apply andb_true_intro; split); auto.
  - apply every_instrument_code; try assumption.
    + intros a Ha. now apply digits_other_than.
    + cbn [every] in Hl. repeat (apply andb_prop in Hl as [? Hl]).
      cbn [every]. repeat (apply andb_true_intro; split); auto.
Qed.

(** The lines the logging program writes. *)
Lemma render_one_line (e : entry) : entry_ok e -> one_line (render e).
Proof.
  destruct e as [t u v|t d1 c d2 d side]; cbn [entry_ok render].
  - intros (_ & [[Hu _] _] & [[Hv _] _]). apply one_line_formatted.
    now apply every_oi_message.
  - intros (_ & [Hd1 _] & Hc & [Hd2 _] & Hd & Hside). apply one_line_formatted.
    now apply every_strike_message.
Qed.

Lemma parse_formatted (t : datetime) (msg : string) :
  valid_timestamp t ->
  parse_log_line (format_timestamp t ++ ": " ++ msg) = Some (t, msg).
Proof.
  intros Ht. rewrite parse_log_line_fields by apply colon_free_timestamp.
  now rewrite strptime_format.
Qed.

(** What the extractors return on the two messages. *)
Lemma extract_oi_message (u v : string) :
  reading u -> reading v ->
  extract_oi_data ("ATM CE OI:" ++ u ++ " PE OI:" ++ v) =
    Ok (Some (decimal u), Some (decimal v)) /\
  extract_strike_data ("ATM CE OI:" ++ u ++ " PE OI:" ++ v) = Ok None.
Proof.
  intros [[Hu Hun] Hul] [[Hv Hvn] Hvl]. split.
  - pose proof (extract_oi_data_message "" u " PE " v "") as H.
    rewrite append_empty, Hul, Hvl in H. now apply H.
  - rewrite extract_strike_data_spec.
    now rewrite (contains_missing_char "s")
      by (reflexivity || now apply every_oi_message).
Qed.

Lemma extract_strike_message (d1 : string) (c : ascii) (d2 : string)
      (d : ascii) (side : string) :
  digits d1 -> c = "N"%char \/ c = "F"%char -> digits d2 ->
  isdigit d = true -> side = "CE"%string \/ side = "PE"%string ->
  extract_oi_data ("ATM strikes: " ++ instrument_code d1 c d2 d side) =
    Ok (None, None) /\
  extract_strike_data ("ATM strikes: " ++ instrument_code d1 c d2 d side) =
    Ok (Some (String d EmptyString)).
Proof.
  intros [Hd1 Hn1] Hc [Hd2 Hn2] Hd Hside. split.
  - rewrite extract_oi_data_spec.
    now rewrite (contains_missing_char "O")
      by (reflexivity || now apply every_strike_message).
  - pose proof (extract_strike_data_code "ATM strikes: " d1 c d2 d side "") as H.
    rewrite append_empty in H. apply H; try assumption; [|reflexivity].
    exact (contains_app "ATM strikes:" "" (" " ++ instrument_code d1 c d2 d side)).
Qed.

Lemma line_rows_render (e : entry) :
  entry_ok e -> line_ok (render e) = true /\ line_rows (render e) = [row_of e].
Proof.
  destruct e as [t u v|t d1 c d2 d side]; cbn [entry_ok render row_of].
  - intros (Ht & Hu & Hv). destruct (extract_oi_message u v Hu Hv) as [Ho Hs].
    unfold line_ok. rewrite (line_rows_formatted _ _ Ht), (parse_formatted _ _ Ht).
    rewrite (convertible_Ok _ _ Ho). now rewrite Ho, Hs.
  - intros (Ht & Hd1 & Hc & Hd2 & Hd & Hside).
    destruct (extract_strike_message d1 c d2 d side Hd1 Hc Hd2 Hd Hside) as [Ho Hs].
    unfold line_ok. rewrite (line_rows_formatted _ _ Ht), (parse_formatted _ _ Ht).
    rewrite (convertible_Ok _ _ Ho). now rewrite Ho, Hs.
Qed.

Lemma rows_render (entries : list entry) :
  Forall entry_ok entries ->
  Forall one_line (map render entries) /\
  forallb line_ok (map render entries) = true /\
  flat_map line_rows (map render entries) = map row_of entries.
Proof.
  induction 1 as [|e l He _ (IH1 & IH2 & IH3)]; [now repeat split|].
  destruct (line_rows_render _ He) as [Hk Hr].
  cbn [map flat_map forallb]. repeat split.
  - constructor; [now apply render_one_line|exact IH1].
  - now rewrite Hk, IH2.
  - now rewrite Hr, IH3.
Qed.

End LineFacts.

(** ** The fraction of a second *)

Module FractionFacts.
Import Str Spec StrFacts DigitFacts Re ReFacts StampFacts ParseFacts AcceptFacts.

Lemma every_zeros (k : nat) : every isdigit (zeros k) = true.
Proof. induction k as [|k IH]; [reflexivity|exact IH]. Qed.

Lemma decimal_from_app (a b : string) (acc : Z) :
  decimal_from acc (a ++ b) = decimal_from (decimal_from acc a) b.
Proof.
  revert acc; induction a as [|c a IH]; intros acc; [reflexivity|].
  cbn [append decimal_from]. apply IH.
Qed.

Lemma decimal_from_zeros (k : nat) (acc : Z) :
  decimal_from acc (zeros k) = acc * 10 ^ Z.of_nat k.
Proof.
  revert acc; induction k as [|k IH]; intros acc.
  - cbn [zeros decimal_from]. change (10 ^ Z.of_nat 0) with 1. lia.
  - cbn [zeros decimal_from]. change (digit_val "0") with (Some 0).
    rewrite IH, Nat2Z.inj_succ, Z.pow_succ_r by lia. lia.
Qed.

(** A run of [n] digits denotes a number below the [n]th power of ten. *)
Lemma decimal_from_bound (s : string) (acc : Z) :
  0 <= acc -> every isdigit s = true ->
  acc * 10 ^ Z.of_nat (String.length s) <= decimal_from acc s
    < (acc + 1) * 10 ^ Z.of_nat (String.length s).
Proof.
  revert acc; induction s as [|a s IH]; intros acc Hacc Hs.
  - cbn [String.length decimal_from]. change (10 ^ Z.of_nat 0) with 1. lia.
  - cbn [every] in Hs. apply andb_prop in Hs as [Ha Hs].
    unfold isdigit in Ha. destruct (digit_val a) as [d|] eqn:E; [|discriminate].
    pose proof (digit_val_range _ _ E) as Hd.
    cbn [String.length decimal_from]. rewrite E.
    rewrite Nat2Z.inj_succ, Z.pow_succ_r by lia.
    specialize (IH (10 * acc + d) ltac:(lia) Hs).
    assert (0 < 10 ^ Z.of_nat (String.length s)) by (apply Z.pow_pos_nonneg; lia).
    nia.
Qed.

(** [int] of the fraction padded to six digits. *)
Lemma length_app (a b : string) :
  String.length (a ++ b) = (String.length a + String.length b)%nat.
Proof. induction a as [|c a IH]; cbn [append String.length Nat.add]; congruence. Qed.

Lemma length_zeros (k : nat) : String.length (zeros k) = k.
Proof. induction k as [|k IH]; cbn [zeros String.length]; congruence. Qed.

Lemma int_fraction (f : string) :
  every isdigit f = true -> f <> EmptyString -> (String.length f <= 6)%nat ->
  int (f ++ zeros (6 - String.length f)) =
    Ok (decimal f * 10 ^ Z.of_nat (6 - String.length f)).
Proof.
  intros Hf Hn Hl. rewrite int_digits.
  - unfold decimal. now rewrite decimal_from_app, decimal_from_zeros.
  - now rewrite every_app, Hf, every_zeros.
  - destruct f; [congruence|discriminate].
  - unfold within_limit, max_str_digits.
    rewrite length_app, length_zeros. apply Z.leb_le. lia.
Qed.

Lemma fraction_range (f : string) :
  every isdigit f = true -> (String.length f <= 6)%nat ->
  0 <= decimal f * 10 ^ Z.of_nat (6 - String.length f) <= 999999.
Proof.
  intros Hf Hl.
  pose proof (decimal_from_bound f 0 ltac:(lia) Hf) as Hb. fold (decimal f) in Hb.
  assert (Hp : 10 ^ Z.of_nat (String.length f) * 10 ^ Z.of_nat (6 - String.length f)
               = 1000000).
  { rewrite <- Z.pow_add_r by lia.
    replace (Z.of_nat (String.length f) + Z.of_nat (6 - String.length f)) with 6 by lia.
    reflexivity. }
  assert (0 < 10 ^ Z.of_nat (6 - String.length f)) by (apply Z.pow_pos_nonneg; lia).
  assert (0 < 10 ^ Z.of_nat (String.length f)) by (apply Z.pow_pos_nonneg; lia).
  nia.
Qed.

Lemma re_f_digits (f : string) (g : groups) :
  every isdigit f = true -> (1 <= String.length f <= 6)%nat ->
  hd_error (run re_f f g) = Some (f, EmptyString, (gf, f) :: g).
Proof.
  intros Hf Hl. unfold re_f. apply run_group_head. cbn [run].
  rewrite hd_error_map, rep_whole; [reflexivity| |exact Hl].
  apply (every_impl isdigit); [apply isdigit_in_range|exact Hf].
Qed.

Lemma colon_free_digits (a : ascii) (f : string) :
  every isdigit f = true -> colon_free (String a f) = true.
Proof.
  revert a; induction f as [|b f IH]; intros a Hf; [reflexivity|].
  cbn [every] in Hf. apply andb_prop in Hf as [Hb Hf].
  cbn [colon_free]. fold (colon_free (String b f)).
  rewrite (eqb_digit_other b " " Hb) by reflexivity.
  rewrite andb_false_r. now apply IH.
Qed.

Lemma colon_free_app (h : string) (a : ascii) (f : string) :
  colon_free (h ++ String a EmptyString) = true ->
  colon_free (String a f) = true ->
  colon_free (h ++ String a f) = true.
Proof.
  intros Hh Hf. induction h as [|b h IH]; [exact Hf|].
  destruct h as [|c h].
  - cbn [append colon_free] in *. fold (colon_free (String a f)).
    rewrite Hf. now rewrite andb_true_r in *.
  - cbn [append colon_free] in *.
    apply andb_prop in Hh as [Hb Hh]. rewrite Hb. now apply IH.
Qed.

Lemma colon_free_fraction (t : datetime) (f : string) :
  every isdigit f = true -> colon_free (format_fraction t f) = true.
Proof.
  intros Hf. unfold format_fraction.
  change ("," ++ f)%string with (String "," f).
  apply colon_free_app; [|now apply colon_free_digits].
  unfold format_seconds, pad4, pad3, pad2. cbn [append colon_free].
  rewrite !eqb_colon_digit, !eqb_blank_digit. reflexivity.
Qed.

(** The greedy fraction stops after six digits. *)
Lemma rep_prefix (p : ascii -> bool) (lo : nat) (m r : string) :
  every p m = true -> (lo <= String.length m)%nat ->
  hd_error (rep p lo (String.length m) (m ++ r)) = Some (m, r).
Proof.
  revert lo; induction m as [|a m IH]; intros lo Hm Hl;
    cbn [every String.length] in *.
  - assert (lo = 0%nat) by lia. subst lo. reflexivity.
  - apply andb_prop in Hm as [Ha Hm]. cbn [append rep]. rewrite Ha.
    rewrite hd_error_app, hd_error_map, (IH (Nat.pred lo) Hm); [reflexivity|lia].
Qed.

Lemma re_f_six (m r : string) (g : groups) :
  every isdigit m = true -> String.length m = 6%nat ->
  hd_error (run re_f (m ++ r) g) = Some (m, r, (gf, m) :: g).
Proof.
  intros Hm Hl. unfold re_f. apply run_group_head. cbn [run].
  rewrite hd_error_map, <- Hl, rep_prefix; [reflexivity| |lia].
  apply (every_impl isdigit); [apply isdigit_in_range|exact Hm].
Qed.

Lemma match_seconds (t : datetime) (f m r : string) :
  check_date (year t) (month t) (day t) = true ->
  check_time (hour t) (minute t) (second t) 0 = true ->
  (forall g, hd_error (run re_f f g) = Some (m, r, (gf, m) :: g)) ->
  match_ format_regex (format_fraction t f) =
  Some (format_fraction t m, r,
        [(gf, m); (gS, pad2 (second t));
         (gM, pad2 (minute t)); (gH, pad2 (hour t)); (gd, pad2 (day t));
         (gm, pad2 (month t)); (gY, pad4 (year t))]).
Proof.
  intros Hd Ht Hf. unfold check_date, check_time in *.
  pose proof (days_in_month_le (year t) (month t)) as Hdim.
  unfold match_, format_regex, format_fraction, format_seconds.
  rewrite !append_assoc.
  eapply run_seq_head; [apply re_Y_field|].
  eapply run_seq_head; [apply (run_lit_head "-")|].
  eapply run_seq_head; [apply re_m_field; lia|].
  eapply run_seq_head; [apply (run_lit_head "-")|].
  eapply run_seq_head; [apply re_d_field; lia|].
  eapply run_seq_head; [apply space_field|].
  eapply run_seq_head; [apply re_H_field; lia|].
  eapply run_seq_head; [apply (run_lit_head ":")|].
  eapply run_seq_head; [apply re_M_field; lia|].
  eapply run_seq_head; [apply (run_lit_head ":")|].
  eapply run_seq_head; [apply re_S_field; lia|].
  eapply run_seq_head; [apply (run_lit_head ",")|].
  apply Hf.
Qed.

Lemma strptime_fraction (t : datetime) (f : string) :
  check_date (year t) (month t) (day t) = true ->
  check_time (hour t) (minute t) (second t) 0 = true ->
  every isdigit f = true -> (1 <= String.length f <= 6)%nat ->
  strptime (format_fraction t f) = Ok (with_fraction t f).
Proof.
  intros Hd Ht Hf Hl. unfold strptime.
  rewrite (match_seconds t f f EmptyString Hd Ht)
    by (intros g; now apply re_f_digits).
  pose proof (days_in_month_le (year t) (month t)) as Hdim.
  cbn [group Nat.eqb gY gm gd gH gM gS gf].
  pose proof Hd as Hd'. pose proof Ht as Ht'.
  unfold check_date, check_time in Hd', Ht'.
  rewrite int_pad4 by lia. cbn [bind].
  rewrite !int_pad2 by lia. cbn [bind].
  assert (Hn : f <> EmptyString) by (destruct f; [cbn in Hl; lia|discriminate]).
  rewrite (int_fraction f Hf Hn ltac:(lia)).
  cbn [bind]. unfold make, with_fraction. rewrite Hd.
  pose proof (fraction_range f Hf ltac:(lia)) as Hr.
  assert (Hc : check_time (hour t) (minute t) (second t)
                 (decimal f * 10 ^ Z.of_nat (6 - String.length f)) = true).
  { unfold check_time in *. rewrite !andb_true_iff, !Z.leb_le in *. lia. }
  now rewrite Hc.
Qed.

(** A seventh digit of the fraction is left over, and [strptime] raises. *)
Lemma strptime_fraction_long (t : datetime) (f : string) :
  check_date (year t) (month t) (day t) = true ->
  check_time (hour t) (minute t) (second t) 0 = true ->
  every isdigit f = true -> (6 < String.length f)%nat ->
  strptime (format_fraction t f) = Raise ValueError.
Proof.
  intros Hd Ht Hf Hl.
  destruct f as [|a1 [|a2 [|a3 [|a4 [|a5 [|a6 [|a7 f]]]]]]]; try (cbn in Hl; lia).
  set (m := String a1 (String a2 (String a3 (String a4 (String a5
              (String a6 EmptyString)))))).
  unfold strptime.
  rewrite (match_seconds t _ m (String a7 f) Hd Ht); [reflexivity|].
  intros g. apply (re_f_six m (String a7 f)); [|reflexivity].
  cbn [every] in *. repeat (apply andb_prop in Hf as [? Hf]).
  repeat (apply andb_true_intro; split); auto.
Qed.

End FractionFacts.

(** ** A reading too long to convert *)

Module LimitFacts.
Import Str Spec StrFacts DigitFacts OIFacts ParseFacts BuilderFacts AcceptFacts
       MessageFacts LineFacts FractionFacts.

Lemma digits_long_reading : every isdigit long_reading = true.
Proof. unfold long_reading. cbn [every]. now rewrite every_zeros. Qed.

Lemma within_limit_long_reading : within_limit long_reading = false.
Proof.
  unfold within_limit, long_reading. cbn [String.length].
  rewrite length_zeros. reflexivity.
Qed.

Lemma oi_occurrences_long :
  oi_occurrences ("ATM CE OI:" ++ long_reading ++ " PE OI:2") =
  [long_reading; "2"%string].
Proof.
  change ("ATM CE OI:" ++ long_reading ++ " PE OI:2")%string
    with ("ATM CE " ++ ("OI:" ++ long_reading ++ (" PE " ++ "OI:" ++ "2" ++ "")))%string.
  rewrite (oi_occurrences_skip "ATM CE ") by reflexivity.
  rewrite (oi_occurrences_at long_reading)
    by (apply digits_long_reading || discriminate || reflexivity).
  rewrite (oi_occurrences_skip " PE ") by reflexivity.
  now rewrite (oi_occurrences_at "2") by (reflexivity || discriminate).
Qed.

Lemma extract_oi_data_long :
  extract_oi_data ("ATM CE OI:" ++ long_reading ++ " PE OI:2") = Raise ValueError.
Proof.
  rewrite extract_oi_data_spec, oi_occurrences_long.
  change ("ATM CE OI:" ++ long_reading ++ " PE OI:2")%string
    with ("" ++ "ATM CE OI:" ++ (long_reading ++ " PE OI:2"))%string.
  now rewrite contains_app, within_limit_long_reading.
Qed.



End LimitFacts.

(** * The claims *)

Import Str Spec StrFacts DigitFacts OIFacts StrikeFacts StampFacts ParseFacts
       BuilderFacts AcceptFacts MessageFacts LimitFacts.

(** C1, as stated, fails: the line of the strike example does not give the
    one StrikeRecord with strike ["45000"]. *)
Lemma strike_line_no_strike_45000 :
  process_log_data strike_line <> Ok [StrikeRecord stamp_456 "45000"].
Proof. vm_compute. discriminate. Qed.

(** C1 (amended): the line
    [2024-01-15 09:30:00,456: ATM strikes: BANKNIFTY24JAN45000CE] parses to
    the time stamp 2024-01-15T09:30:00.456 and the message after it, but the
    instrument code does not match the pattern, which wants a single letter
    [N] or [F] after the digits [24] and finds [J]; the strike extractor
    returns absent and the pipeline produces no row. *)
Theorem strike_line_no_row :
  parse_log_line strike_line =
    Some (stamp_456, "ATM strikes: BANKNIFTY24JAN45000CE") /\
  Re.match_ strike_pattern "BANKNIFTY24JAN45000CE" = None /\
  extract_strike_data "ATM strikes: BANKNIFTY24JAN45000CE" = Ok None /\
  process_log_data strike_line = Ok [].
Proof. repeat split; vm_compute; reflexivity. Qed.

(** C2 (the code at the failing input): for a message with the marker and
    the instrument code [BANKNIFTY24N45000CE], whose numeric group in front
    of [CE] is [45000], [extract_strike_data] returns ["0"]: the greedy
    [\d+] in front of the capture group leaves it the last digit only. *)
Theorem extract_strike_data_last_digit :
  extract_strike_data "ATM strikes: BANKNIFTY24N45000CE" = Ok (Some "0") /\
  extract_strike_data "ATM strikes: BANKNIFTY24N45000CE" <> Ok (Some "45000").
Proof. split; vm_compute; [reflexivity | discriminate]. Qed.

(** C3: the line
    [2024-01-15 09:30:00,123: ATM CE OI:1500000 PE OI:1200000] gives exactly
    one row, the OIRecord with time stamp 2024-01-15T09:30:00.123,
    [ce_oi = 1500000], [pe_oi = 1200000] and [oi_difference = 300000]. *)
Theorem oi_line_one_row :
  process_log_data oi_line = Ok [OIRecord stamp_123 1500000 1200000 300000].
Proof. vm_compute. reflexivity. Qed.

(** C4: for every valid time stamp of millisecond precision and every
    message, the line [YYYY-MM-DD HH:MM:SS,mmm: <msg>] parses to exactly that
    time stamp and exactly that message, whatever [": "] the message holds;
    when the delimiter ends the line, the message is the empty text, not
    absent. *)
Theorem parse_log_line_well_formed (t : datetime) (msg : string) :
  valid_timestamp t ->
  parse_log_line (format_timestamp t ++ ": " ++ msg) = Some (t, msg) /\
  parse_log_line (format_timestamp t ++ ": ") = Some (t, EmptyString).
Proof.
  intros H. split.
  - rewrite parse_log_line_fields by apply colon_free_timestamp.
    now rewrite (strptime_format t H).
  - change (format_timestamp t ++ ": ")%string
      with (format_timestamp t ++ ": " ++ "")%string.
    rewrite parse_log_line_fields by apply colon_free_timestamp.
    now rewrite (strptime_format t H).
Qed.

Lemma parse_log_line_well_formed_witness :
  valid_timestamp (mk_datetime 2024 2 29 23 59 59 7000) /\
  parse_log_line "2024-02-29 23:59:59,007: ATM: a: b: " =
    Some (mk_datetime 2024 2 29 23 59 59 7000, "ATM: a: b: ") /\
  parse_log_line "2024-02-29 23:59:59,007: " =
    Some (mk_datetime 2024 2 29 23 59 59 7000, EmptyString).
Proof.
  assert (H : valid_timestamp (mk_datetime 2024 2 29 23 59 59 7000))
    by (repeat split; reflexivity).
  split; [exact H|].
  exact (parse_log_line_well_formed
           (mk_datetime 2024 2 29 23 59 59 7000) "ATM: a: b: " H).
Defined.



(** C6, as stated, fails: in the message [ATM CE OI:<r> PE OI:2], where
    [<r>] is a one followed by 4300 zeros, the marker stands and the
    occurrences are [<r>] and [2], but the extractor returns nothing: [int]
    raises [ValueError] on the 4301 digits. *)
Lemma long_reading_not_converted :
  contains "ATM CE OI:" ("ATM CE OI:" ++ long_reading ++ " PE OI:2") = true /\
  oi_occurrences ("ATM CE OI:" ++ long_reading ++ " PE OI:2") =
    [long_reading; "2"%string] /\
  extract_oi_data ("ATM CE OI:" ++ long_reading ++ " PE OI:2") = Raise ValueError /\
  extract_oi_data ("ATM CE OI:" ++ long_reading ++ " PE OI:2") <>
    Ok (Some (decimal long_reading), Some (decimal "2")).
Proof.
  split; [|split; [|split]].
  - exact (contains_app "ATM CE OI:" "" (long_reading ++ " PE OI:2")).
  - apply oi_occurrences_long.
  - apply extract_oi_data_long.
  - rewrite extract_oi_data_long. discriminate.
Qed.

(** C6 (amended): a message without the marker [ATM CE OI:] gives absent,
    whatever occurrences of [OI:<digits>] it holds; with the marker and
    fewer than two occurrences it gives absent; with the marker and at least
    two occurrences, the first two of at most 4300 digits each, the digits
    of the first occurrence, read as a non-negative integer, are [ce_oi] and
    those of the second are [pe_oi], in the order of appearance, the further
    ones being ignored. *)
Theorem extract_oi_data_correct (message : string) :
  (contains "ATM CE OI:" message = false ->
   extract_oi_data message = Ok (None, None)) /\
  (contains "ATM CE OI:" message = true ->
   (length (oi_occurrences message) < 2)%nat ->
   extract_oi_data message = Ok (None, None)) /\
  (forall v0 v1 more,
     contains "ATM CE OI:" message = true ->
     oi_occurrences message = v0 :: v1 :: more ->
     within_limit v0 = true -> within_limit v1 = true ->
     extract_oi_data message = Ok (Some (decimal v0), Some (decimal v1)) /\
     int v0 = Ok (decimal v0) /\ int v1 = Ok (decimal v1) /\
     0 <= decimal v0 /\ 0 <= decimal v1).
Proof.
  rewrite extract_oi_data_spec. repeat apply conj.
  - now intros ->.
  - intros -> H. destruct (oi_occurrences message) as [|v0 [|v1 l]];
      [reflexivity | reflexivity | cbn [length] in H; lia].
  - intros v0 v1 more -> E L0 L1. rewrite E, L0, L1.
    destruct (oi_occurrences_digits message v0) as [H0 N0]; [rewrite E; now left|].
    destruct (oi_occurrences_digits message v1) as [H1 N1];
      [rewrite E; right; now left|].
    auto using int_digits, decimal_nonneg.
Qed.

Lemma extract_oi_data_correct_witness :
  extract_oi_data "ATM CE OI:0150 PE OI:72 x OI:9" = Ok (Some 150, Some 72) /\
  extract_oi_data "OI:1 OI:2" = Ok (None, None) /\
  extract_oi_data "ATM CE OI:150 PE OI: 72" = Ok (None, None).
Proof.
  split; [|split].
  - apply (proj2 (proj2 (extract_oi_data_correct "ATM CE OI:0150 PE OI:72 x OI:9"))
             "0150" "72" ["9"]); reflexivity.
  - apply (proj1 (extract_oi_data_correct "OI:1 OI:2")). reflexivity.
  - apply (proj1 (proj2 (extract_oi_data_correct "ATM CE OI:150 PE OI: 72")));
      [reflexivity | vm_compute; lia].
Defined.



(** C8: in every OIRecord of the series of every text, [oi_difference] is
    [ce_oi - pe_oi] as a signed integer: negative when [pe_oi] is the
    larger. *)
Theorem oi_difference_signed (log_text : string) (rows : list row)
        (timestamp : datetime) (ce_oi pe_oi oi_difference : Z) :
  process_log_data log_text = Ok rows ->
  In (OIRecord timestamp ce_oi pe_oi oi_difference) rows ->
  oi_difference = ce_oi - pe_oi /\ (ce_oi < pe_oi -> oi_difference < 0).
Proof.
  intros H0 H. apply process_log_data_Ok in H0 as [_ ->].
  unfold series in H. apply in_flat_map in H as [line [_ H]].
  unfold line_rows in H.
  destruct (parse_log_line line) as [[t message]|]; [|destruct H].
  apply in_app_iff in H as [H|H].
  - destruct (value (None, None) (extract_oi_data message)) as [[ce|] [pe|]];
      cbn [oi_rows In] in H; try contradiction.
    destruct H as [[= <- <- <- <-]|[]]. lia.
  - destruct (value None (extract_strike_data message)) as [k|];
      cbn [strike_rows] in H; [|destruct H].
    destruct (truthy k); [|destruct H].
    destruct H as [[=]|[]].
Qed.

Lemma oi_difference_signed_witness :
  process_log_data "2024-01-15 09:30:00,123: ATM CE OI:5 PE OI:7" =
    Ok [OIRecord stamp_123 5 7 (-2)] /\
  (-2 = 5 - 7 /\ (5 < 7 -> -2 < 0)).
Proof.
  split; [reflexivity|].
  apply (oi_difference_signed
           "2024-01-15 09:30:00,123: ATM CE OI:5 PE OI:7"
           [OIRecord stamp_123 5 7 (-2)] stamp_123 5 7 (-2));
    [reflexivity | now left].
Defined.

(** C9: two invocations of the series builder on the same text return the
    same.  The invocations are run on the heap of the interpreter, the list
    [data] being an object of it: the second invocation, started on the heap
    the first one left, returns what the first one returned, the rows or the
    exception; what an invocation returns depends on the text alone, whatever
    heap it starts on; the second invocation leaves the list the first one
    built, and every older list, as they were, and the first leaves every
    list that existed as it was. *)
Theorem no_hidden_state (log_text : string) (h : heap) :
  fst (process_log_data_at log_text (snd (process_log_data_at log_text h))) =
    fst (process_log_data_at log_text h) /\
  (forall h' : heap,
     fst (process_log_data_at log_text h') = process_log_data log_text) /\
  (forall l : loc,
     (l <= length h)%nat ->
     contents l
       (snd (process_log_data_at log_text (snd (process_log_data_at log_text h)))) =
     contents l (snd (process_log_data_at log_text h))) /\
  (forall l : loc,
     (l < length h)%nat ->
     contents l (snd (process_log_data_at log_text h)) = contents l h).
Proof.
  destruct (process_log_data_at_pure log_text h) as [d1 E1]. rewrite E1.
  cbn [fst snd].
  destruct (process_log_data_at_pure log_text (h ++ [d1])) as [d2 E2]. rewrite E2.
  cbn [fst snd]. repeat apply conj.
  - reflexivity.
  - intros h'. destruct (process_log_data_at_pure log_text h') as [d E].
    now rewrite E.
  - intros l Hl. apply contents_older. rewrite length_app. cbn [length]. lia.
  - intros l Hl. now apply contents_older.
Qed.

(** C10: whenever the strike extractor succeeds, the strike it returns has
    length one: it is the single digit in front of the [CE] or [PE], the
    digit in front of it belonging to the greedy run that took all the
    digits but the last. *)
Theorem strike_is_one_digit (message strike : string) :
  extract_strike_data message = Ok (Some strike) ->
  String.length strike = 1%nat /\
  exists (before : string) (e d : ascii) (side after : string),
    strike = String d EmptyString /\
    message = (before ++ String e (String d side) ++ after)%string /\
    isdigit e = true /\ isdigit d = true /\ (side = "CE" \/ side = "PE").
Proof.
  intros H.
  apply extract_strike_data_Some in H as [pre [e [d [side [post H]]]]].
  split.
  - destruct H as [-> _]. reflexivity.
  - now exists pre, e, d, side, post.
Qed.

Lemma strike_is_one_digit_witness :
  extract_strike_data "ATM strikes: BANKNIFTY24N45000CE" = Ok (Some "0") /\
  String.length "0" = 1%nat.
Proof.
  split; [reflexivity|].
  apply (strike_is_one_digit "ATM strikes: BANKNIFTY24N45000CE" "0").
  reflexivity.
Defined.

(** * Further properties *)

(** X1: the strike extractor never raises; it returns absent when the
    message lacks the marker [ATM strikes:] or the instrument-code pattern
    matches at no position of it; a strike that is returned is the first
    group of the leftmost match, a text, not a number. *)
Theorem extract_strike_data_first_match (message : string) :
  (exists strike, extract_strike_data message = Ok strike) /\
  (contains "ATM strikes:" message = false ->
   extract_strike_data message = Ok None) /\
  ((forall pre t, message = (pre ++ t)%string ->
                  Re.match_ strike_pattern t = None) ->
   extract_strike_data message = Ok None) /\
  (forall strike,
     extract_strike_data message = Ok (Some strike) ->
     contains "ATM strikes:" message = true /\
     exists pre t m rest g,
       message = (pre ++ t)%string /\
       Re.match_ strike_pattern t = Some (m, rest, g) /\
       strike = Re.group 1 g /\
       forall pre' t',
         message = (pre' ++ t')%string ->
         (String.length pre' < String.length pre)%nat ->
         Re.match_ strike_pattern t' = None).
Proof.
  rewrite extract_strike_data_spec. repeat apply conj.
  - eexists. reflexivity.
  - now intros ->.
  - intros H. unfold Re.findall. rewrite (findall_go_nil _ _ _ H).
    now destruct (contains "ATM strikes:" message).
  - intros strike. destruct (contains "ATM strikes:" message); [|discriminate].
    destruct (Re.findall strike_pattern message) as [|g l] eqn:E; [discriminate|].
    intros [= <-]. split; [reflexivity|].
    destruct (findall_head_leftmost _ _ _ _ E) as [pre [t [m [rest H]]]].
    now exists pre, t, m, rest, g.
Qed.

Lemma extract_strike_data_first_match_witness :
  extract_strike_data "BANKNIFTY24N45000CE" = Ok None /\
  extract_strike_data
    "ATM strikes: BANKNIFTY24N45017CE BANKNIFTY24N45029PE" = Ok (Some "7").
Proof.
  split.
  - apply (proj1 (proj2 (extract_strike_data_first_match "BANKNIFTY24N45000CE"))).
    reflexivity.
  - reflexivity.
Defined.

(** X2: whenever a line parses, the message is the line without its first
    field and the delimiter behind it, nothing of it lost: a line with a
    delimiter is its first field, the delimiter and the message; a line
    without one is its first field, and the message is empty. *)
Theorem parsed_message_is_the_rest (line : string)
        (timestamp : datetime) (message : string) :
  parse_log_line line = Some (timestamp, message) ->
  (contains ": " line = true ->
   exists field,
     strptime field = Ok timestamp /\
     line = (field ++ ": " ++ message)%string) /\
  (contains ": " line = false ->
   strptime line = Ok timestamp /\ message = EmptyString).
Proof.
  intros H. split; intros Hc.
  - rewrite parse_log_line_first_field in H.
    pose proof (join_split ": " line) as Hj.
    destruct (split_contains ": " line) as [f [g [rest E]]];
      [discriminate | assumption |].
    rewrite E in H, Hj. cbn [hd tl] in H.
    destruct (strptime f) as [t|e] eqn:Ef; [|discriminate].
    injection H as <- <-. exists f. split; [assumption|].
    symmetry. apply Hj. discriminate.
  - rewrite (parse_log_line_no_delimiter line Hc) in H.
    destruct (strptime line) as [t|e]; [|discriminate].
    injection H as <- <-. now split.
Qed.

Lemma parsed_message_is_the_rest_witness :
  ((contains ": " "2024-1-5 9:3:0,5: x: y" = true ->
    exists field,
      strptime field = Ok (mk_datetime 2024 1 5 9 3 0 500000) /\
      "2024-1-5 9:3:0,5: x: y"%string = (field ++ ": " ++ "x: y")%string) /\
   (contains ": " "2024-1-5 9:3:0,5: x: y" = false ->
    strptime "2024-1-5 9:3:0,5: x: y" = Ok (mk_datetime 2024 1 5 9 3 0 500000) /\
    "x: y"%string = EmptyString)) /\
  ((contains ": " "2024-01-15 09:30:00,123" = true ->
    exists field,
      strptime field = Ok stamp_123 /\
      "2024-01-15 09:30:00,123"%string = (field ++ ": " ++ "")%string) /\
   (contains ": " "2024-01-15 09:30:00,123" = false ->
    strptime "2024-01-15 09:30:00,123" = Ok stamp_123 /\
    EmptyString = EmptyString)).
Proof.
  split.
  - apply (parsed_message_is_the_rest "2024-1-5 9:3:0,5: x: y").
    reflexivity.
  - apply (parsed_message_is_the_rest "2024-01-15 09:30:00,123").
    reflexivity.
Defined.

Import ReFacts AcceptFacts RowFacts.

(** X3: every row of the series of every text is well formed: its time
    stamp lies in the ranges of the calendar and of the clock (year 1 to
    9999, a day the month has, hour below 24, minute and second below 60,
    microsecond below a million); in an OIRecord neither open interest is
    negative and the difference is theirs; in a StrikeRecord the strike is a
    text of exactly one decimal digit. *)
Theorem rows_well_formed (log_text : string) (rows : list row) (r : row) :
  process_log_data log_text = Ok rows ->
  In r rows ->
  well_formed_row r.
Proof.
  intros H0 Hr. apply process_log_data_Ok in H0 as [_ ->].
  apply in_flat_map in Hr as (line & _ & Hr).
  destruct r as [t ce pe d|t k].
  - apply line_rows_In_oi in Hr as (msg & Hp & Ho & ->).
    apply parse_log_line_Some in Hp as [Hp _].
    split; [exact (valid_in_ranges _ (strptime_valid _ _ Hp))|].
    destruct (extract_oi_data_cases msg) as [E|[E|(ce' & pe' & E & Hc & He)]];
      rewrite E in Ho; [discriminate|discriminate|].
    injection Ho as <- <-. auto.
  - apply line_rows_In_strike in Hr as (msg & Hp & Hs).
    apply parse_log_line_Some in Hp as [Hp _].
    split; [exact (valid_in_ranges _ (strptime_valid _ _ Hp))|].
    apply extract_strike_data_Some in Hs
      as (pre & e & d & side & post & -> & _ & _ & Hd & _).
    now exists d.
Qed.

Lemma rows_well_formed_witness :
  well_formed_row (OIRecord (mk_datetime 2024 2 29 23 59 59 999999) 0 7 (-7)) /\
  well_formed_row (StrikeRecord (mk_datetime 2024 1 5 9 3 0 500000) "7").
Proof.
  split.
  - apply (rows_well_formed
             "2024-02-29 23:59:59,999999: ATM CE OI:000 PE OI:7"
             [OIRecord (mk_datetime 2024 2 29 23 59 59 999999) 0 7 (-7)]);
      [vm_compute; reflexivity | left; reflexivity].
  - apply (rows_well_formed
             "2024-1-5 9:3:0,5: ATM strikes: BANKNIFTY1F27PE"
             [StrikeRecord (mk_datetime 2024 1 5 9 3 0 500000) "7"]);
      [vm_compute; reflexivity | left; reflexivity].
Defined.

(** X4: a line that parses starts with a decimal digit, and its first field,
    the text up to the first [": "], is made of decimal digits, whitespace
    and the characters [-], [:] and [,] only.  So the empty line, and every
    line that starts with anything but a digit, is skipped. *)
Theorem parsed_line_alphabet (line : string)
        (timestamp : datetime) (message : string) :
  parse_log_line line = Some (timestamp, message) ->
  starts_in isdigit line = true /\
  every stamp_char (hd EmptyString (split ": " line)) = true.
Proof.
  intros H. apply parse_log_line_Some in H as [H _]. split.
  - apply (first_field_start _ ": "). exact (strptime_starts_digit _ _ H).
  - exact (strptime_alphabet _ _ H).
Qed.

Lemma parsed_line_alphabet_witness :
  starts_in isdigit "2024-1-5 9:3:0,5: ATM strikes: none" = true /\
  every stamp_char
        (hd EmptyString (split ": " "2024-1-5 9:3:0,5: ATM strikes: none")) = true.
Proof.
  apply (parsed_line_alphabet _ (mk_datetime 2024 1 5 9 3 0 500000)
                              "ATM strikes: none").
  vm_compute; reflexivity.
Defined.

(** X5: where the rows come from.  The series of a text holds the
    StrikeRecord of a time stamp and a strike exactly when some line of the
    text parses to that time stamp and the strike extractor returns that
    strike on its message; it holds the OIRecord of a time stamp and three
    numbers exactly when some line parses to that time stamp, the OI
    extractor returns the first two on its message, and the third is their
    difference.  The test [if strike:] never drops a strike the extractor
    returned. *)
Theorem row_provenance (log_text : string) (rows : list row) :
  process_log_data log_text = Ok rows ->
  (forall timestamp strike,
     In (StrikeRecord timestamp strike) rows <->
     exists line message,
       In line (split nl log_text) /\
       parse_log_line line = Some (timestamp, message) /\
       extract_strike_data message = Ok (Some strike)) /\
  (forall timestamp ce_oi pe_oi oi_difference,
     In (OIRecord timestamp ce_oi pe_oi oi_difference) rows <->
     exists line message,
       In line (split nl log_text) /\
       parse_log_line line = Some (timestamp, message) /\
       extract_oi_data message = Ok (Some ce_oi, Some pe_oi) /\
       oi_difference = ce_oi - pe_oi).
Proof.
  intros H0. apply process_log_data_Ok in H0 as [_ ->]. unfold series. split.
  - intros t k. rewrite in_flat_map. split.
    + intros (line & Hl & Hr). apply line_rows_In_strike in Hr as (msg & Hr).
      now exists line, msg.
    + intros (line & msg & Hl & Hr). exists line. split; [exact Hl|].
      apply line_rows_In_strike. now exists msg.
  - intros t ce pe d. rewrite in_flat_map. split.
    + intros (line & Hl & Hr). apply line_rows_In_oi in Hr as (msg & Hr).
      now exists line, msg.
    + intros (line & msg & Hl & Hr). exists line. split; [exact Hl|].
      apply line_rows_In_oi. now exists msg.
Qed.

Lemma row_provenance_witness :
  In (StrikeRecord stamp_456 "0")
     [StrikeRecord stamp_456 "0"; OIRecord stamp_123 5 7 (-2)] <->
  exists line message,
    In line
       (split nl
          ("2024-01-15 09:30:00,456: ATM strikes: BANKNIFTY24N45000CE" ++ nl ++
           "2024-01-15 09:30:00,123: ATM CE OI:5 PE OI:7")) /\
    parse_log_line line = Some (stamp_456, message) /\
    extract_strike_data message = Ok (Some "0"%string).
Proof.
  apply (row_provenance
           ("2024-01-15 09:30:00,456: ATM strikes: BANKNIFTY24N45000CE" ++ nl ++
            "2024-01-15 09:30:00,123: ATM CE OI:5 PE OI:7")).
  vm_compute; reflexivity.
Defined.

(** X6: the series depends on the lines that add rows only.  For lines
    without newline whose text, joined by newlines, the series builder
    returns a series for: the series is the rows of the lines one after the
    other, and it is also what the builder returns for the text in which
    every line that adds no row (blank, unparsable or matching no
    extractor) has been left out. *)
Theorem rowless_lines_removable (lines : list string) (rows : list row) :
  Forall one_line lines ->
  process_log_data (join nl lines) = Ok rows ->
  rows = flat_map line_rows lines /\
  process_log_data (join nl (filter adds_rows lines)) = Ok rows.
Proof.
  intros H H0. apply process_log_data_Ok in H0 as [Hk ->].
  rewrite (series_join _ H). split; [reflexivity|].
  assert (Hk' : forallb line_ok lines = true).
  { destruct lines as [|l ls]; [reflexivity|].
    now rewrite split_nl_join in Hk. }
  rewrite process_log_data_series.
  rewrite (series_join _ (Forall_filter _ _ _ H)), flat_map_adds_rows.
  destruct (filter adds_rows lines) as [|l ls] eqn:E; [reflexivity|].
  rewrite split_nl_join; [|discriminate|rewrite <- E; now apply Forall_filter].
  assert (G : forallb line_ok (filter adds_rows lines) = true).
  { apply forallb_forall. intros x Hx. apply filter_In in Hx as [Hx _].
    rewrite forallb_forall in Hk'. now apply Hk'. }
  rewrite E in G. now rewrite G.
Qed.

Lemma rowless_lines_removable_witness :
  [OIRecord stamp_123 5 7 (-2)] =
  flat_map line_rows
    ["starting up"; "2024-01-15 09:30:00,123: ATM CE OI:5 PE OI:7";
     ""; "2024-01-15 09:30:00,456: heartbeat"] /\
  process_log_data
    (join nl (filter adds_rows
                ["starting up"; "2024-01-15 09:30:00,123: ATM CE OI:5 PE OI:7";
                 ""; "2024-01-15 09:30:00,456: heartbeat"])) =
  Ok [OIRecord stamp_123 5 7 (-2)].
Proof.
  apply (rowless_lines_removable
           ["starting up"; "2024-01-15 09:30:00,123: ATM CE OI:5 PE OI:7";
            ""; "2024-01-15 09:30:00,456: heartbeat"]).
  - repeat constructor.
  - vm_compute. reflexivity.
Defined.

(** X7: a line adds at most one row of each kind, however many open
    interests or instrument codes it holds: the series of a text has no more
    OIRecords than the text has lines, no more StrikeRecords either, and so
    at most two rows for each line. *)
Theorem rows_per_line (log_text : string) (rows : list row) :
  process_log_data log_text = Ok rows ->
  (length (filter is_oi rows) <= length (split nl log_text))%nat /\
  (length (filter is_strike rows) <= length (split nl log_text))%nat /\
  (length rows <= 2 * length (split nl log_text))%nat.
Proof.
  intros H0. apply process_log_data_Ok in H0 as [_ ->]. unfold series.
  pose proof (fun p (Hp : forall x, (length (filter p (line_rows x)) <= 1)%nat) =>
                length_flat_map_le (fun x => filter p (line_rows x))
                                   (split nl log_text) 1 Hp) as Hk.
  rewrite !filter_line_rows.
  pose proof (Hk is_oi (fun x => proj1 (line_rows_kinds x))) as H1.
  pose proof (Hk is_strike (fun x => proj2 (line_rows_kinds x))) as H2.
  split; [lia|]. split; [lia|].
  apply length_flat_map_le. intros line.
  destruct (line_rows_kinds line) as [Ho Hs].
  assert (E : forall l : list row,
             length l = (length (filter is_oi l) + length (filter is_strike l))%nat).
  { induction l as [|[] l IH]; cbn; lia. }
  rewrite (E (line_rows line)). lia.
Qed.

Lemma rows_per_line_witness :
  (length (filter is_oi [OIRecord stamp_123 1 2 (-1)]) <= 1)%nat /\
  (length (filter is_strike [OIRecord stamp_123 1 2 (-1)]) <= 1)%nat /\
  (length [OIRecord stamp_123 1 2 (-1)] <= 2 * 1)%nat.
Proof.
  apply (rows_per_line
           "2024-01-15 09:30:00,123: ATM CE OI:1 PE OI:2 OI:3 OI:4"
           [OIRecord stamp_123 1 2 (-1)]).
  vm_compute; reflexivity.
Defined.

Import MessageFacts LineFacts.

(** X8: what the strike extractor returns on an instrument code.  For a
    message with the marker [ATM strikes:] whose first [B] opens a code
    [BANKNIFTY<d1><c><d2><d><side>], where [d1] and [d2] are non-empty runs
    of digits, [c] is [N] or [F], [d] is a digit and [side] is [CE] or [PE],
    the extractor returns the text of the one digit [d], the last in front
    of the side, whatever follows the code. *)
Theorem strike_of_instrument_code (pre d1 : string) (c : ascii) (d2 : string)
        (d : ascii) (side rest : string) :
  contains "ATM strikes:" (pre ++ instrument_code d1 c d2 d side ++ rest) = true ->
  every (other_than "B") pre = true ->
  every isdigit d1 = true -> d1 <> EmptyString ->
  c = "N"%char \/ c = "F"%char ->
  every isdigit d2 = true -> d2 <> EmptyString -> isdigit d = true ->
  side = "CE"%string \/ side = "PE"%string ->
  extract_strike_data (pre ++ instrument_code d1 c d2 d side ++ rest) =
    Ok (Some (String d EmptyString)).
Proof. apply extract_strike_data_code. Qed.

Lemma strike_of_instrument_code_witness :
  extract_strike_data
    "ATM strikes: BANKNIFTY24N45017PE, BANKNIFTY24N45000CE" = Ok (Some "7"%string).
Proof.
  apply (strike_of_instrument_code
           "ATM strikes: " "24" "N" "4501" "7" "PE" ", BANKNIFTY24N45000CE");
    (reflexivity || discriminate || (left; reflexivity) || (right; reflexivity)).
Defined.

(** X9: what the OI extractor does on a message with two readings.  For a
    message [<pre>OI:<u><mid>OI:<v><rest>] that contains the marker
    [ATM CE OI:] anywhere, where [pre] and [mid] hold no [O], [u] and [v] are
    non-empty runs of digits, and neither [mid] nor [rest] starts with a
    digit: when [u] and [v] have at most 4300 digits each, the extractor
    returns the number [u] as the call's open interest and the number [v] as
    the put's, the first two readings of the whole message, also when the
    marker stands behind them, and what [rest] holds is ignored; when one of
    the two is longer, it raises [ValueError]. *)
Theorem oi_of_message (pre u mid v rest : string) :
  contains "ATM CE OI:" (pre ++ "OI:" ++ u ++ mid ++ "OI:" ++ v ++ rest) = true ->
  every (other_than "O") pre = true ->
  every isdigit u = true -> u <> EmptyString ->
  every (other_than "O") mid = true -> starts_in isdigit mid = false ->
  every isdigit v = true -> v <> EmptyString ->
  starts_in isdigit rest = false ->
  (within_limit u = true -> within_limit v = true ->
   extract_oi_data (pre ++ "OI:" ++ u ++ mid ++ "OI:" ++ v ++ rest) =
     Ok (Some (decimal u), Some (decimal v))) /\
  (within_limit u = false \/ within_limit v = false ->
   extract_oi_data (pre ++ "OI:" ++ u ++ mid ++ "OI:" ++ v ++ rest) =
     Raise ValueError).
Proof.
  intros Hm Hpre Hu Hun Hmid Hmd Hv Hvn Hrest.
  rewrite (extract_oi_data_readings pre u mid v rest) by assumption.
  split.
  - now intros -> ->.
  - intros [-> | ->]; [reflexivity|]. now rewrite andb_false_r.
Qed.

Lemma oi_of_message_witness :
  extract_oi_data "spot 45012.5 ATM CE OI:1500000, PE OI:0012 (OI:7)" =
    Ok (Some 1500000, Some 12) /\
  extract_oi_data "prev OI:5 and OI:7; now ATM CE OI:9 PE OI:4" =
    Ok (Some 5, Some 7).
Proof.
  split.
  - apply (oi_of_message "spot 45012.5 ATM CE " "1500000" ", PE " "0012" " (OI:7)");
      (reflexivity || discriminate).
  - apply (oi_of_message "prev " "5" " and " "7" "; now ATM CE OI:9 PE OI:4");
      (reflexivity || discriminate).
Defined.

(** X10: the log the logging program writes is read back row by row.  For
    every list of entries, each one an OI line
    [YYYY-MM-DD HH:MM:SS,mmm: ATM CE OI:<u> PE OI:<v>] or a strike line
    [YYYY-MM-DD HH:MM:SS,mmm: ATM strikes: BANKNIFTY<d1><c><d2><d><side>]
    (a valid time stamp of millisecond precision; [u], [v], [d1], [d2]
    non-empty runs of digits, [u] and [v] of at most 4300 digits; [c] one of
    [N], [F]; [d] a digit; [side] one of [CE], [PE]), the series of the lines joined by newlines has exactly one
    row for each line, in the order of the lines: for an OI line the
    OIRecord of its time stamp, the numbers [u] and [v] and their
    difference, for a strike line the StrikeRecord of its time stamp whose
    strike is the one digit [d]. *)
Theorem log_read_back (entries : list entry) :
  Forall entry_ok entries ->
  process_log_data (join nl (map render entries)) = Ok (map row_of entries).
Proof.
  intros H. apply rows_render in H as (Hl & Hk & Hr).
  rewrite process_log_data_series, (series_join _ Hl), Hr.
  destruct entries as [|e l]; [reflexivity|].
  rewrite split_nl_join; [now rewrite Hk|discriminate|exact Hl].
Qed.

Lemma log_read_back_witness :
  process_log_data
    (join nl
       (map render
            [StrikeEntry (mk_datetime 2024 1 15 9 30 0 456000) "24" "N" "4500" "0" "CE";
             OIEntry (mk_datetime 2024 2 29 23 59 59 7000) "12" "0150"])) =
  Ok (map row_of
          [StrikeEntry (mk_datetime 2024 1 15 9 30 0 456000) "24" "N" "4500" "0" "CE";
           OIEntry (mk_datetime 2024 2 29 23 59 59 7000) "12" "0150"]).
Proof.
  apply (log_read_back
           [StrikeEntry (mk_datetime 2024 1 15 9 30 0 456000) "24" "N" "4500" "0" "CE";
            OIEntry (mk_datetime 2024 2 29 23 59 59 7000) "12" "0150"]).
  repeat constructor; discriminate.
Defined.

Import FractionFacts.

(** X11: the digits behind the comma are a decimal fraction of a second.
    For a valid date and time of day written [YYYY-MM-DD HH:MM:SS], a comma
    and a run [f] of digits, then [": "] and any message: with one to six
    digits the line parses, and the microseconds of its time stamp are the
    number [f] times ten to the power of six minus the length of [f] (so
    [,5] is half a second, [,123] is 123 milliseconds, [,000123] is 123
    microseconds); with more than six digits the line is skipped. *)
Theorem fraction_of_a_second (t : datetime) (f message : string) :
  check_date (year t) (month t) (day t) = true ->
  check_time (hour t) (minute t) (second t) 0 = true ->
  every isdigit f = true ->
  ((1 <= String.length f <= 6)%nat ->
   parse_log_line (format_fraction t f ++ ": " ++ message) =
     Some (with_fraction t f, message) /\
   0 <= microsecond (with_fraction t f) <= 999999) /\
  ((6 < String.length f)%nat ->
   parse_log_line (format_fraction t f ++ ": " ++ message) = None).
Proof.
  intros Hd Ht Hf.
  pose proof (parse_log_line_fields (format_fraction t f) message
                (colon_free_fraction t f Hf)) as Hp.
  split; intros Hl; rewrite Hp.
  - rewrite (strptime_fraction t f Hd Ht Hf Hl). split; [reflexivity|].
    apply fraction_range; [exact Hf|lia].
  - now rewrite (strptime_fraction_long t f Hd Ht Hf Hl).
Qed.

Lemma fraction_of_a_second_witness :
  parse_log_line "2024-01-15 09:30:00,5: tick" =
    Some (mk_datetime 2024 1 15 9 30 0 500000, "tick") /\
  parse_log_line "2024-01-15 09:30:00,000123: tick" =
    Some (mk_datetime 2024 1 15 9 30 0 123, "tick") /\
  parse_log_line "2024-01-15 09:30:00,1234567: tick" = None.
Proof.
  split; [|split].
  - apply (fraction_of_a_second (mk_datetime 2024 1 15 9 30 0 0) "5" "tick");
      (reflexivity || (cbn; lia)).
  - apply (fraction_of_a_second (mk_datetime 2024 1 15 9 30 0 0) "000123" "tick");
      (reflexivity || (cbn; lia)).
  - apply (fraction_of_a_second (mk_datetime 2024 1 15 9 30 0 0) "1234567" "tick");
      (reflexivity || (cbn; lia)).
Defined.

(** X12: instrument codes that give no strike.  For a message whose first
    [B] opens [BANKNIFTY<d1><a><tail>], where [d1] is a run of digits, [a]
    is no digit, and either [a] is neither [N] nor [F] or no digit follows
    it, and where no further [BANKNIFTY] follows, the strike extractor
    returns absent, with or without the marker.  This is the case of every
    code that names the month by its three letters, [JAN] to [DEC]: [NOV]
    and [FEB] start with a letter the pattern takes, but a letter follows
    it. *)
Theorem month_name_code_no_strike (pre d1 : string) (a : ascii) (tail : string) :
  every (other_than "B") pre = true ->
  every isdigit d1 = true -> isdigit a = false ->
  (a <> "N"%char /\ a <> "F"%char) \/ starts_in isdigit tail = false ->
  contains "BANKNIFTY" (String a tail) = false ->
  extract_strike_data (pre ++ "BANKNIFTY" ++ d1 ++ String a tail) = Ok None.
Proof. apply extract_strike_data_no_code. Qed.

Lemma month_name_code_no_strike_witness :
  extract_strike_data "ATM strikes: BANKNIFTY24MAR45000CE" = Ok None /\
  extract_strike_data "ATM strikes: BANKNIFTY24FEB45000PE" = Ok None.
Proof.
  split.
  - apply (month_name_code_no_strike "ATM strikes: " "24" "M" "AR45000CE");
      try reflexivity. left. split; discriminate.
  - apply (month_name_code_no_strike "ATM strikes: " "24" "F" "EB45000PE");
      try reflexivity. right. reflexivity.
Defined.
